(** * A singly linked list of C [int]s (list.c), embedded over an explicit heap

    The C module manipulates [struct ll_node { int data; struct ll_node *next; }]
    through raw pointers, [malloc] and [free].  The embedding keeps that shape:

    - a pointer is [option loc] ([None] is the C [NULL]);
    - the memory is a pair of typed stores, one for list nodes and one for
      [int] arrays, plus the sequence of outcomes of the [malloc] calls still
      to come;
    - every C function is a function in a small state-and-error monad;
      dereferencing a pointer that is [NULL], dangling or uninitialised, an
      out-of-bounds array access and a signed overflow are [Fault]s;
    - every [while]/[for] loop is a fixpoint on a fuel argument that bounds
      the number of iterations; running out of it is [Timeout];
    - an [int] is a [Z]: the values stored in the list are only copied and
      compared, and the counters are incremented through [int_add], which
      faults outside the range of the type. *)

From stdpp Require Import gmap list fin_maps strings.
From Stdlib Require Import ZArith Lia.

Local Open Scope Z_scope.

(** ** Machine parameters (LP64) *)

Definition INT_MAX : Z := 2147483647.
Definition INT_MIN : Z := -2147483648.
Definition SIZE_MOD : Z := 18446744073709551616.
Definition sizeof_int : Z := 4.

(** ** Memory *)

Definition loc := positive.
Abbreviation ptr := (option loc).
Abbreviation NULL := (@None loc).

(** A [struct ll_node] in memory.  A field is [None] until it is first
    written: [malloc] returns uninitialised storage. *)
Record ll_node := Node { data : option Z; next : option ptr }.

(** An [int] array in memory: one cell per element, [None] until written. *)
Abbreviation int_array := (list (option Z)).

Record state := State {
  nodes : gmap loc ll_node;
  arrays : gmap loc int_array;
  oracle : list bool
}.

(** ** The monad *)

Inductive outcome (A : Type) : Type :=
| Done (a : A) (s : state)
| Fault
| Timeout.
Arguments Done {A} a s.
Arguments Fault {A}.
Arguments Timeout {A}.

Definition M (A : Type) : Type := state -> outcome A.

Definition ret {A} (a : A) : M A := fun s => Done a s.

Definition bind {A B} (m : M A) (k : A -> M B) : M B :=
  fun s =>
    match m s with
    | Done a s' => k a s'
    | Fault => Fault
    | Timeout => Timeout
    end.

Definition fault {A} : M A := fun _ => Fault.
Definition timeout {A} : M A := fun _ => Timeout.

Notation "x <- m ;; k" := (bind m (fun x => k))
  (at level 100, m at next level, right associativity).
Notation "m ;;; k" := (bind m (fun _ => k))
  (at level 100, right associativity).

(** ** Primitive operations *)

(** [a + b] on [int]: a result outside the type is undefined behaviour. *)
Definition int_add (a b : Z) : M Z :=
  if (INT_MIN <=? a + b) && (a + b <=? INT_MAX) then ret (a + b) else fault.

(** [a * b] on [size_t], after the usual conversion of both operands. *)
Definition size_mul (a b : Z) : Z := ((a mod SIZE_MOD) * (b mod SIZE_MOD)) mod SIZE_MOD.

(** [p->data] and [p->next] as rvalues. *)
Definition load_data (p : ptr) : M Z := fun s =>
  match p with
  | None => Fault
  | Some a =>
      match nodes s !! a with
      | Some (Node (Some v) _) => Done v s
      | _ => Fault
      end
  end.

Definition load_next (p : ptr) : M ptr := fun s =>
  match p with
  | None => Fault
  | Some a =>
      match nodes s !! a with
      | Some (Node _ (Some q)) => Done q s
      | _ => Fault
      end
  end.

(** [p->data = v] and [p->next = q]. *)
Definition store_data (p : ptr) (v : Z) : M unit := fun s =>
  match p with
  | None => Fault
  | Some a =>
      match nodes s !! a with
      | Some (Node _ nx) =>
          Done tt (State (<[a := Node (Some v) nx]> (nodes s)) (arrays s) (oracle s))
      | None => Fault
      end
  end.

Definition store_next (p : ptr) (q : ptr) : M unit := fun s =>
  match p with
  | None => Fault
  | Some a =>
      match nodes s !! a with
      | Some (Node d _) =>
          Done tt (State (<[a := Node d (Some q)]> (nodes s)) (arrays s) (oracle s))
      | None => Fault
      end
  end.

(** [free(p)] for a node pointer; [free(NULL)] does nothing, and freeing
    what is not allocated is a fault. *)
Definition free_node (p : ptr) : M unit := fun s =>
  match p with
  | None => Done tt s
  | Some a =>
      match nodes s !! a with
      | Some _ => Done tt (State (delete a (nodes s)) (arrays s) (oracle s))
      | None => Fault
      end
  end.

(** [arr[i]] as an rvalue and [arr[i] = v]. *)
Definition load_at (arr : ptr) (i : Z) : M Z := fun s =>
  match arr with
  | None => Fault
  | Some b =>
      match arrays s !! b with
      | Some cells =>
          if i <? 0 then Fault
          else match cells !! Z.to_nat i with
               | Some (Some v) => Done v s
               | _ => Fault
               end
      | None => Fault
      end
  end.

Definition store_at (arr : ptr) (i : Z) (v : Z) : M unit := fun s =>
  match arr with
  | None => Fault
  | Some b =>
      match arrays s !! b with
      | Some cells =>
          if (0 <=? i) && (i <? Z.of_nat (length cells)) then
            Done tt (State (nodes s)
                           (<[b := <[Z.to_nat i := Some v]> cells]> (arrays s))
                           (oracle s))
          else Fault
      | None => Fault
      end
  end.

(** [free(arr)] for an [int] array. *)
Definition free_ints (arr : ptr) : M unit := fun s =>
  match arr with
  | None => Done tt s
  | Some b =>
      match arrays s !! b with
      | Some _ => Done tt (State (nodes s) (delete b (arrays s)) (oracle s))
      | None => Fault
      end
  end.

(** A call of [printf]: the format, spelled as in the C source (escape
    sequences are not interpreted), and the arguments passed after it. *)
Inductive printf_arg : Type :=
| PInt (n : Z)
| PStr (t : string).

Record printf_call := Printf { fmt : string; args : list printf_arg }.

Section Allocator.

(** The allocator's choice of address: any address that is not in use. *)
Variable pick : gset loc -> loc.

(** [malloc(sizeof(struct ll_node))].  The next entry of [oracle] says
    whether the call succeeds; an exhausted oracle means no memory left. *)
Definition malloc_node : M ptr := fun s =>
  match oracle s with
  | true :: o =>
      let a := pick (dom (nodes s)) in
      Done (Some a) (State (<[a := Node None None]> (nodes s)) (arrays s) o)
  | false :: o => Done NULL (State (nodes s) (arrays s) o)
  | [] => Done NULL s
  end.

(** [malloc(bytes)] used as an [int] array: [bytes / sizeof(int)] cells. *)
Definition malloc_ints (bytes : Z) : M ptr := fun s =>
  match oracle s with
  | true :: o =>
      let b := pick (dom (arrays s)) in
      Done (Some b)
           (State (nodes s)
                  (<[b := replicate (Z.to_nat (bytes / sizeof_int)) None]> (arrays s))
                  o)
  | false :: o => Done NULL (State (nodes s) (arrays s) o)
  | [] => Done NULL s
  end.

(** ** The functions of list.c *)

Definition ll_head (head : ptr) : M ptr := ret head.

(** [while (cur->next) cur = cur->next;] *)
Fixpoint ll_tail_loop (fuel : nat) (cur : ptr) : M ptr :=
  c <- load_next cur ;;
  match c with
  | None => ret cur
  | Some _ =>
      match fuel with
      | O => timeout
      | S f => nx <- load_next cur ;; ll_tail_loop f nx
      end
  end.

Definition ll_tail (fuel : nat) (head : ptr) : M ptr :=
  match head with
  | None => ret NULL
  | Some _ => ll_tail_loop fuel head
  end.

(** [while (cur) { count++; cur = cur->next; }] *)
Fixpoint ll_size_loop (fuel : nat) (count : Z) (cur : ptr) : M Z :=
  match cur with
  | None => ret count
  | Some _ =>
      match fuel with
      | O => timeout
      | S f =>
          count' <- int_add count 1 ;;
          nx <- load_next cur ;;
          ll_size_loop f count' nx
      end
  end.

Definition ll_size (fuel : nat) (head : ptr) : M Z :=
  ll_size_loop fuel 0 head.

(** [while (cur) { if (cur->data == value) return cur; cur = cur->next; }] *)
Fixpoint ll_find (fuel : nat) (cur : ptr) (value : Z) : M ptr :=
  match cur with
  | None => ret NULL
  | Some _ =>
      match fuel with
      | O => timeout
      | S f =>
          d <- load_data cur ;;
          if d =? value then ret cur
          else nx <- load_next cur ;; ll_find f nx value
      end
  end.

(** [while (cur && i < n) { arr[i++] = cur->data; cur = cur->next; }] *)
Fixpoint ll_toarray_loop (fuel : nat) (arr : ptr) (n : Z) (cur : ptr) (i : Z)
  : M unit :=
  match cur with
  | None => ret tt
  | Some _ =>
      if i <? n then
        match fuel with
        | O => timeout
        | S f =>
            d <- load_data cur ;;
            store_at arr i d ;;;
            i' <- int_add i 1 ;;
            nx <- load_next cur ;;
            ll_toarray_loop f arr n nx i'
        end
      else ret tt
  end.

Definition ll_toarray (fuel : nat) (head : ptr) : M ptr :=
  match head with
  | None => ret NULL
  | Some _ =>
      n <- ll_size fuel head ;;
      if n =? 0 then ret NULL
      else
        arr <- malloc_ints (size_mul sizeof_int n) ;;
        match arr with
        | None => ret NULL
        | Some _ => ll_toarray_loop fuel arr n head 0 ;;; ret arr
        end
  end.

Definition ll_create (d : Z) : M ptr :=
  node <- malloc_node ;;
  match node with
  | None => ret NULL
  | Some _ => store_data node d ;;; store_next node NULL ;;; ret node
  end.

(** [while (cur) { next = cur->next; free(cur); cur = next; }] *)
Fixpoint ll_destroy (fuel : nat) (cur : ptr) : M unit :=
  match cur with
  | None => ret tt
  | Some _ =>
      match fuel with
      | O => timeout
      | S f => nx <- load_next cur ;; free_node cur ;;; ll_destroy f nx
      end
  end.

Definition ll_append (fuel : nat) (head : ptr) (d : Z) : M unit :=
  match head with
  | None => ret tt
  | Some _ =>
      tail <- ll_tail fuel head ;;
      match tail with
      | None => ret tt
      | Some _ =>
          node <- ll_create d ;;
          match node with
          | None => ret tt
          | Some _ => store_next tail node
          end
      end
  end.

(** [for (i = 1; i < len; ++i) { ... }] of [ll_fromarray]; [dfuel] bounds
    the loop of [ll_destroy] on the failure path. *)
Fixpoint ll_fromarray_loop (dfuel fuel : nat) (arr : ptr) (len : Z)
    (head tail : ptr) (i : Z) : M ptr :=
  if i <? len then
    match fuel with
    | O => timeout
    | S f =>
        d <- load_at arr i ;;
        node <- ll_create d ;;
        match node with
        | None => ll_destroy dfuel head ;;; ret NULL
        | Some _ =>
            store_next tail node ;;;
            i' <- int_add i 1 ;;
            ll_fromarray_loop dfuel f arr len head node i'
        end
    end
  else ret head.

Definition ll_fromarray (fuel : nat) (arr : ptr) (len : Z) : M ptr :=
  match arr with
  | None => ret NULL
  | Some _ =>
      if len <=? 0 then ret NULL
      else
        d <- load_at arr 0 ;;
        head <- ll_create d ;;
        match head with
        | None => ret NULL
        | Some _ => ll_fromarray_loop fuel fuel arr len head head 1
        end
  end.

(** [while (cur) { if (cur->data == value) { prev->next = cur->next;
    free(cur); return head; } prev = cur; cur = cur->next; }] *)
Fixpoint ll_remove_loop (fuel : nat) (prev cur : ptr) (value : Z) : M unit :=
  match cur with
  | None => ret tt
  | Some _ =>
      match fuel with
      | O => timeout
      | S f =>
          d <- load_data cur ;;
          if d =? value then
            nx <- load_next cur ;;
            store_next prev nx ;;;
            free_node cur
          else
            nx <- load_next cur ;;
            ll_remove_loop f cur nx value
      end
  end.

Definition ll_remove (fuel : nat) (head : ptr) (value : Z) : M ptr :=
  match head with
  | None => ret NULL
  | Some _ =>
      d <- load_data head ;;
      if d =? value then
        newhead <- load_next head ;;
        free_node head ;;;
        ret newhead
      else
        cur <- load_next head ;;
        ll_remove_loop fuel head cur value ;;;
        ret head
  end.

(** [for (int i = 0; i < ll_size(lst); ++i) printf("%d ", arr[i]);] of
    [main]; [out] is what has been printed so far. *)
Fixpoint main_print_loop (lfuel fuel : nat) (lst arr : ptr) (i : Z)
    (out : list printf_call) : M (list printf_call) :=
  n <- ll_size lfuel lst ;;
  if i <? n then
    match fuel with
    | O => timeout
    | S f =>
        x <- load_at arr i ;;
        i' <- int_add i 1 ;;
        main_print_loop lfuel f lst arr i' (out ++ [Printf "%d " [PInt x]])
    end
  else ret out.

(** [main]: the exit status and the sequence of [printf] calls. *)
Definition main (fuel : nat) : M (Z * list printf_call) :=
  let out := [Printf "Quick manual test of linked list functions\n" []] in
  lst <- ll_create 1 ;;
  match lst with
  | None => ret (1, out ++ [Printf "create failed\n" []])
  | Some _ =>
      ll_append fuel lst 2 ;;;
      ll_append fuel lst 3 ;;;
      n <- ll_size fuel lst ;;
      let out := out ++ [Printf "size = %d\n" [PInt n]] in
      arr <- ll_toarray fuel lst ;;
      out <- match arr with
             | None => ret out
             | Some _ =>
                 out <- main_print_loop fuel fuel lst arr 0
                          (out ++ [Printf "array: " []]) ;;
                 free_ints arr ;;;
                 ret (out ++ [Printf "\n" []])
             end ;;
      f <- ll_find fuel lst 2 ;;
      let out :=
        out ++ [Printf "find 2: %s\n"
                  [PStr (match f with Some _ => "found" | None => "not found" end)]] in
      lst <- ll_remove fuel lst 1 ;;
      n <- ll_size fuel lst ;;
      let out := out ++ [Printf "after remove head, size = %d\n" [PInt n]] in
      ll_destroy fuel lst ;;;
      ret (0, out)
  end.

End Allocator.

(** ** The list a head pointer stands for

    [chain h p ns]: following [next] from [p] in the node store [h] visits
    exactly the nodes [ns] (address and value, in traversal order) and then
    reaches [NULL].  A head pointer is a valid list exactly when such an
    [ns] exists; the chain is then finite and acyclic. *)

Inductive chain (h : gmap loc ll_node) : ptr -> list (loc * Z) -> Prop :=
| chain_nil : chain h NULL []
| chain_cons a v q ns :
    h !! a = Some (Node (Some v) (Some q)) ->
    chain h q ns ->
    chain h (Some a) ((a, v) :: ns).

Definition addrs (ns : list (loc * Z)) : list loc := map fst ns.
Definition values (ns : list (loc * Z)) : list Z := map snd ns.

(** The first [k] calls of [malloc] from state [s] succeed. *)
Definition alloc_ok (k : nat) (s : state) : Prop :=
  take k (oracle s) = replicate k true.

(** The value sequence [l] without its first occurrence of [v]. *)
Fixpoint remove_first (v : Z) (l : list Z) : list Z :=
  match l with
  | [] => []
  | x :: l' => if x =? v then l' else x :: remove_first v l'
  end.

(** The same on nodes: drop the first node holding [v]. *)
Fixpoint unlink_first (v : Z) (ns : list (loc * Z)) : list (loc * Z) :=
  match ns with
  | [] => []
  | (a, x) :: ns' => if x =? v then ns' else (a, x) :: unlink_first v ns'
  end.

(** The address of the first node of [ns] holding [v], if any. *)
Fixpoint first_holding (v : Z) (ns : list (loc * Z)) : ptr :=
  match ns with
  | [] => NULL
  | (a, x) :: ns' => if x =? v then Some a else first_holding v ns'
  end.

(** The pointer that heads the node sequence [ns]. *)
Definition head_of (ns : list (loc * Z)) : ptr :=
  match ns with
  | [] => NULL
  | (a, _) :: _ => Some a
  end.

(** The pointer to the last node of [ns]. *)
Definition last_ptr (ns : list (loc * Z)) : ptr := fst <$> last ns.

(** The pointer reached from [p] after following [next] [k] times. *)
Fixpoint follow (h : gmap loc ll_node) (k : nat) (p : ptr) : option ptr :=
  match k with
  | O => Some p
  | S k' =>
      match p with
      | None => None
      | Some a =>
          match h !! a with
          | Some (Node _ (Some q)) => follow h k' q
          | _ => None
          end
      end
  end.

(** [h] is [h0] with the nodes [ns] added at addresses unused in [h0]. *)
Definition extends (h0 h : gmap loc ll_node) (ns : list (loc * Z)) : Prop :=
  (forall a, a ∈ addrs ns -> h0 !! a = None) /\
  (forall a, a ∉ addrs ns -> h !! a = h0 !! a).

(** ** Concrete memories, used to run the functions

    [demo_state] holds the list 1, 2, 3 at the addresses 1, 2, 3;
    [demo_array_state] holds the array [[7; 8; 9]] at address 1 and
    [seven_state] the arrays [[]] and [[7]] at addresses 1 and 2.  In all of
    them the next eight calls of [malloc] succeed. *)

Definition demo_list : list (loc * Z) :=
  [(1%positive, 1); (2%positive, 2); (3%positive, 3)].

Definition demo_nodes : gmap loc ll_node :=
  list_to_map
    [(1%positive, Node (Some 1) (Some (Some 2%positive)));
     (2%positive, Node (Some 2) (Some (Some 3%positive)));
     (3%positive, Node (Some 3) (Some NULL))].

Definition demo_state : state := State demo_nodes ∅ (replicate 8 true).

Definition demo_array_state : state :=
  State ∅ (list_to_map [(1%positive, [Some 7; Some 8; Some 9])])
        (replicate 8 true).

Definition seven_state : state :=
  State ∅ (list_to_map [(1%positive, []); (2%positive, [Some 7])])
        (replicate 8 true).

(** More memories: [starved_state] is [demo_state] with no memory left to
    allocate; [dup_state] holds the list 2, 1, 2; in [loop_state] the only
    node is its own successor; in [short_state] the third allocation fails. *)

Definition starved_state : state := State demo_nodes ∅ [].

Definition dup_list : list (loc * Z) :=
  [(1%positive, 2); (2%positive, 1); (3%positive, 2)].

Definition dup_state : state :=
  State (list_to_map
           [(1%positive, Node (Some 2) (Some (Some 2%positive)));
            (2%positive, Node (Some 1) (Some (Some 3%positive)));
            (3%positive, Node (Some 2) (Some NULL))])
        ∅ (replicate 8 true).

Definition loop_state : state :=
  State (list_to_map [(1%positive, Node (Some 1) (Some (Some 1%positive)))])
        ∅ (replicate 8 true).

(** [sole_state] holds the one-node list 7 at address 1. *)
Definition sole_list : list (loc * Z) := [(1%positive, 7)].

Definition sole_state : state :=
  State (list_to_map [(1%positive, Node (Some 7) (Some NULL))])
        ∅ (replicate 8 true).

Definition short_state : state :=
  State ∅ (list_to_map [(1%positive, [Some 7; Some 8; Some 9])])
        [true; true; false; true].

(** ** Facts about chains *)

Section ChainFacts.

Implicit Types (h : gmap loc ll_node) (p q : ptr) (ns : list (loc * Z)).

Lemma chain_null_inv h ns : chain h NULL ns -> ns = [].
Proof. inversion 1; reflexivity. Qed.

Lemma chain_functional h p ns1 ns2 :
  chain h p ns1 -> chain h p ns2 -> ns1 = ns2.
Proof.
  intros H1; revert ns2.
  induction H1 as [|a v q ns Ha _ IH]; intros ns2 H2.
  - inversion H2; reflexivity.
  - inversion H2 as [|a' v' q' ns' Ha' Hq']; subst.
    rewrite Ha in Ha'. injection Ha' as -> ->.
    f_equal. apply IH, Hq'.
Qed.

Lemma chain_app_inv h p ns1 ns2 :
  chain h p (ns1 ++ ns2) -> exists q, chain h q ns2.
Proof.
  revert p; induction ns1 as [|[a v] ns1 IH]; intros p H; simpl in H.
  - eauto.
  - inversion H; subst; eauto.
Qed.

Lemma chain_allocated h p ns a :
  chain h p ns -> a ∈ addrs ns -> is_Some (h !! a).
Proof.
  induction 1 as [|b v q ns Hb _ IH]; simpl; intros Hin.
  - by apply elem_of_nil in Hin.
  - apply elem_of_cons in Hin as [->|Hin]; eauto.
Qed.

Lemma chain_head_fresh h a v q ns :
  h !! a = Some (Node (Some v) (Some q)) -> chain h q ns -> a ∉ addrs ns.
Proof.
  intros Ha Hq Hin.
  apply list_elem_of_fmap in Hin as [[a' v'] [Heq Hin]]; simpl in Heq; subst a'.
  apply list_elem_of_split in Hin as (l1 & l2 & ->).
  destruct (chain_app_inv _ _ _ _ Hq) as [q' Hq'].
  inversion Hq' as [|a0 v0 q0 ns0 Ha0 Hq0]; subst.
  rewrite Ha in Ha0; injection Ha0 as -> ->.
  pose proof (chain_functional _ _ _ _ Hq Hq0) as Hlen.
  apply (f_equal length) in Hlen. rewrite length_app in Hlen; simpl in Hlen. lia.
Qed.

Lemma chain_NoDup h p ns : chain h p ns -> NoDup (addrs ns).
Proof.
  induction 1 as [|a v q ns Ha Hq IH]; simpl.
  - constructor.
  - constructor; [eapply chain_head_fresh; eauto | exact IH].
Qed.

(** Frame: a chain only depends on the nodes it visits. *)
Lemma chain_frame h h' p ns :
  chain h p ns -> (forall a, a ∈ addrs ns -> h' !! a = h !! a) -> chain h' p ns.
Proof.
  induction 1 as [|a v q ns Ha _ IH]; intros Hsame.
  - constructor.
  - econstructor.
    + rewrite Hsame; [exact Ha | simpl; apply elem_of_cons; by left].
    + apply IH. intros b Hb. apply Hsame. simpl; apply elem_of_cons; by right.
Qed.

Lemma chain_insert_ne h p ns a x :
  chain h p ns -> a ∉ addrs ns -> chain (<[a := x]> h) p ns.
Proof.
  intros H Hni. eapply chain_frame; [exact H|].
  intros b Hb. apply lookup_insert_ne. intros ->. contradiction.
Qed.

Lemma chain_delete_ne h p ns a :
  chain h p ns -> a ∉ addrs ns -> chain (delete a h) p ns.
Proof.
  intros H Hni. eapply chain_frame; [exact H|].
  intros b Hb. apply lookup_delete_ne. intros ->. contradiction.
Qed.

Lemma chain_insert_fresh h p ns a x :
  chain h p ns -> h !! a = None -> chain (<[a := x]> h) p ns.
Proof.
  intros H Hnone. apply chain_insert_ne; [exact H|].
  intros Hin. destruct (chain_allocated _ _ _ _ H Hin) as [y Hy]. congruence.
Qed.

(** Linking a fresh node [n] behind the last node [t] of a chain. *)
Lemma chain_snoc h p ns t x n d :
  chain h p (ns ++ [(t, x)]) ->
  h !! n = None ->
  chain (<[t := Node (Some x) (Some (Some n))]>
           (<[n := Node (Some d) (Some NULL)]> h))
        p ((ns ++ [(t, x)]) ++ [(n, d)]).
Proof.
  revert p. induction ns as [|[a v] ns IH]; intros p Hc Hn; simpl in *.
  - inversion Hc as [|t' x' q ns' Ht Hq]; subst.
    assert (t ≠ n) by congruence.
    econstructor; [apply lookup_insert_eq|].
    econstructor; [|constructor].
    rewrite lookup_insert_ne by done. apply lookup_insert_eq.
  - inversion Hc as [|a' v' q ns' Ha Hq]; subst.
    pose proof (chain_head_fresh _ _ _ _ _ Ha Hq) as Hfresh.
    unfold addrs in Hfresh. rewrite map_app in Hfresh. simpl in Hfresh.
    rewrite elem_of_app, list_elem_of_singleton in Hfresh.
    assert (a ≠ t) by tauto. assert (a ≠ n) by congruence.
    apply chain_cons with (q := q); [|apply IH; assumption].
    rewrite !lookup_insert_ne by done. exact Ha.
Qed.

End ChainFacts.

(** ** Running the primitives *)

Lemma bind_Done {A B} (m : M A) (k : A -> M B) s a s' :
  m s = Done a s' -> bind m k s = k a s'.
Proof. unfold bind. intros ->. reflexivity. Qed.

(** [run H]: execute the first command of the goal's program, given the
    equation [H] for what that command does in the current state. *)
Tactic Notation "run" uconstr(H) := rewrite (bind_Done _ _ _ _ _ H).

Lemma load_data_ok s a v nx :
  nodes s !! a = Some (Node (Some v) nx) -> load_data (Some a) s = Done v s.
Proof. unfold load_data. intros ->. reflexivity. Qed.

Lemma load_next_ok s a d q :
  nodes s !! a = Some (Node d (Some q)) -> load_next (Some a) s = Done q s.
Proof. unfold load_next. intros ->. reflexivity. Qed.

Lemma store_next_ok s a d nx q :
  nodes s !! a = Some (Node d nx) ->
  store_next (Some a) q s =
  Done tt (State (<[a := Node d (Some q)]> (nodes s)) (arrays s) (oracle s)).
Proof. unfold store_next. intros ->. reflexivity. Qed.

Lemma store_data_ok s a d nx v :
  nodes s !! a = Some (Node d nx) ->
  store_data (Some a) v s =
  Done tt (State (<[a := Node (Some v) nx]> (nodes s)) (arrays s) (oracle s)).
Proof. unfold store_data. intros ->. reflexivity. Qed.

Lemma free_node_ok s a x :
  nodes s !! a = Some x ->
  free_node (Some a) s = Done tt (State (delete a (nodes s)) (arrays s) (oracle s)).
Proof. unfold free_node. intros ->. reflexivity. Qed.

Lemma int_add_ok a b s :
  INT_MIN <= a + b <= INT_MAX -> int_add a b s = Done (a + b) s.
Proof.
  intros [Hlo Hhi]. unfold int_add.
  apply Z.leb_le in Hlo, Hhi. rewrite Hlo, Hhi. reflexivity.
Qed.

(** ** ll_size *)

Lemma ll_size_loop_chain fuel count cur ns s :
  chain (nodes s) cur ns ->
  (length ns <= fuel)%nat ->
  INT_MIN <= count ->
  count + Z.of_nat (length ns) <= INT_MAX ->
  ll_size_loop fuel count cur s = Done (count + Z.of_nat (length ns)) s.
Proof.
  intros Hc; revert fuel count.
  induction Hc as [|a v q ns Ha _ IH]; intros fuel count Hfuel Hlo Hhi.
  - destruct fuel; simpl; unfold ret; f_equal; lia.
  - simpl in Hfuel, Hhi. destruct fuel as [|f]; [lia|]. simpl.
    run (int_add_ok count 1 s ltac:(lia)).
    run (load_next_ok _ _ _ _ Ha).
    rewrite IH by lia. f_equal. lia.
Qed.

Lemma ll_size_chain fuel head ns s :
  chain (nodes s) head ns ->
  (length ns <= fuel)%nat ->
  Z.of_nat (length ns) <= INT_MAX ->
  ll_size fuel head s = Done (Z.of_nat (length ns)) s.
Proof.
  intros Hc Hfuel Hhi. unfold ll_size.
  rewrite (ll_size_loop_chain _ 0 _ ns) by (auto; unfold INT_MIN; lia).
  reflexivity.
Qed.

(** ** ll_find *)

Lemma ll_find_chain fuel cur ns v s :
  chain (nodes s) cur ns ->
  (length ns <= fuel)%nat ->
  ll_find fuel cur v s = Done (first_holding v ns) s.
Proof.
  intros Hc; revert fuel.
  induction Hc as [|a x q ns Ha _ IH]; intros fuel Hfuel.
  - destruct fuel; reflexivity.
  - simpl in Hfuel. destruct fuel as [|f]; [lia|]. simpl.
    run (load_data_ok _ _ _ _ Ha).
    destruct (x =? v); [reflexivity|].
    run (load_next_ok _ _ _ _ Ha).
    apply IH. lia.
Qed.

Lemma first_holding_null v ns : first_holding v ns = NULL <-> v ∉ values ns.
Proof.
  induction ns as [|[a x] ns IH]; simpl.
  - split; [intros _; apply not_elem_of_nil | reflexivity].
  - destruct (Z.eqb_spec x v) as [->|Hne].
    + split; [discriminate|]. intros Hni. exfalso. apply Hni, elem_of_cons. by left.
    + rewrite IH. rewrite not_elem_of_cons. split; [intros ?; split; congruence | tauto].
Qed.

Lemma first_holding_some v ns a :
  first_holding v ns = Some a ->
  exists pre post, ns = pre ++ (a, v) :: post /\ v ∉ values pre.
Proof.
  induction ns as [|[b x] ns IH]; simpl; [discriminate|].
  destruct (Z.eqb_spec x v) as [->|Hne].
  - intros [= ->]. exists [], ns. split; [reflexivity | apply not_elem_of_nil].
  - intros H. destruct (IH H) as (pre & post & -> & Hni).
    exists ((b, x) :: pre), post. split; [reflexivity|].
    simpl. rewrite not_elem_of_cons. split; [congruence | exact Hni].
Qed.

Lemma first_holding_addr v ns a : first_holding v ns = Some a -> a ∈ addrs ns.
Proof.
  induction ns as [|[b x] ns IH]; simpl; [discriminate|].
  destruct (x =? v).
  - intros [= ->]. apply elem_of_cons. by left.
  - intros H. apply elem_of_cons. right. by apply IH.
Qed.

(** ** ll_remove *)

Lemma chain_head_of h p ns : chain h p ns -> p = head_of ns.
Proof. destruct 1; reflexivity. Qed.

Lemma state_eta s : State (nodes s) (arrays s) (oracle s) = s.
Proof. destruct s; reflexivity. Qed.

Lemma ll_remove_loop_chain fuel prev pv cur ns v s :
  nodes s !! prev = Some (Node (Some pv) (Some cur)) ->
  chain (nodes s) cur ns ->
  (length ns <= fuel)%nat ->
  exists h',
    ll_remove_loop fuel (Some prev) cur v s
      = Done tt (State h' (arrays s) (oracle s)) /\
    chain h' (Some prev) ((prev, pv) :: unlink_first v ns) /\
    (forall a, a ≠ prev -> a ∉ addrs ns -> h' !! a = nodes s !! a) /\
    (v ∉ values ns -> h' = nodes s) /\
    (forall a, first_holding v ns = Some a -> h' !! a = None).
Proof.
  revert fuel prev pv cur s.
  induction ns as [|[c x] ns IH]; intros fuel prev pv cur s Hp Hc Hfuel.
  - inversion Hc; subst. exists (nodes s). split; [|split; [|split; [|split]]].
    + destruct fuel; simpl; unfold ret; by rewrite state_eta.
    + econstructor; [exact Hp | constructor].
    + reflexivity.
    + reflexivity.
    + discriminate.
  - pose proof (chain_head_fresh _ _ _ _ _ Hp Hc) as Hprev.
    inversion Hc as [|c' x' q ns' Hcn Hq]; subst.
    pose proof (chain_head_fresh _ _ _ _ _ Hcn Hq) as Hcfresh.
    simpl in Hprev. apply not_elem_of_cons in Hprev as [Hpc Hprev].
    simpl in Hfuel. destruct fuel as [|f]; [lia|]. simpl.
    run (load_data_ok _ _ _ _ Hcn).
    destruct (Z.eqb_spec x v) as [->|Hne].
    + run (load_next_ok _ _ _ _ Hcn).
      run (store_next_ok _ _ _ _ q Hp).
      erewrite free_node_ok
        by (simpl; rewrite lookup_insert_ne by congruence; exact Hcn).
      simpl. eexists. split; [reflexivity|]. split; [|split; [|split]].
      * econstructor.
        -- rewrite lookup_delete_ne by congruence. apply lookup_insert_eq.
        -- apply chain_delete_ne; [|exact Hcfresh].
           apply chain_insert_ne; [exact Hq | exact Hprev].
      * intros a Hap Ha. simpl in Ha. apply not_elem_of_cons in Ha as [Hac _].
        rewrite lookup_delete_ne by congruence.
        rewrite lookup_insert_ne by congruence. reflexivity.
      * intros Hni. exfalso. apply Hni. simpl. apply elem_of_cons. by left.
      * intros a [= <-]. apply lookup_delete_eq.
    + run (load_next_ok _ _ _ _ Hcn).
      destruct (IH f c x q s Hcn Hq ltac:(lia))
        as (h' & Hrun & Hch & Hframe & Hsame & Hfreed).
      exists h'. split; [exact Hrun|]. split; [|split; [|split]].
      * econstructor; [|exact Hch].
        rewrite Hframe by (auto; congruence). exact Hp.
      * intros a Hap Ha. simpl in Ha. apply not_elem_of_cons in Ha as [Hac Ha].
        apply Hframe; auto.
      * intros Hni. apply Hsame. simpl in Hni.
        apply not_elem_of_cons in Hni as [_ Hni]. exact Hni.
      * exact Hfreed.
Qed.

Lemma ll_remove_chain fuel head ns v s :
  chain (nodes s) head ns ->
  (length ns <= fuel)%nat ->
  exists h',
    ll_remove fuel head v s
      = Done (head_of (unlink_first v ns)) (State h' (arrays s) (oracle s)) /\
    chain h' (head_of (unlink_first v ns)) (unlink_first v ns) /\
    (forall a, a ∉ addrs ns -> h' !! a = nodes s !! a) /\
    (v ∉ values ns -> h' = nodes s) /\
    (forall a, first_holding v ns = Some a -> h' !! a = None).
Proof.
  intros Hc Hfuel. destruct Hc as [|a x q ns Ha Hq].
  - exists (nodes s). simpl. unfold ret. rewrite state_eta.
    split; [reflexivity|]. split; [constructor|]. split; [reflexivity|].
    split; [reflexivity | discriminate].
  - pose proof (chain_head_fresh _ _ _ _ _ Ha Hq) as Hfresh.
    unfold ll_remove.
    run (load_data_ok _ _ _ _ Ha). simpl.
    destruct (Z.eqb_spec x v) as [->|Hne].
    + run (load_next_ok _ _ _ _ Ha).
      run (free_node_ok _ _ _ Ha).
      unfold ret. rewrite <- (chain_head_of _ _ _ Hq).
      eexists. split; [reflexivity|]. split; [|split; [|split]].
      * apply chain_delete_ne; assumption.
      * intros b Hb. simpl in Hb. apply not_elem_of_cons in Hb as [Hba _].
        apply lookup_delete_ne. congruence.
      * intros Hni. exfalso. apply Hni. apply elem_of_cons. by left.
      * intros b [= <-]. apply lookup_delete_eq.
    + run (load_next_ok _ _ _ _ Ha).
      simpl in Hfuel.
      destruct (ll_remove_loop_chain fuel a x q ns v s Ha Hq ltac:(lia))
        as (h' & Hrun & Hch & Hframe & Hsame & Hfreed).
      run Hrun. unfold ret.
      exists h'. split; [reflexivity|]. split; [exact Hch|]. split; [|split].
      * intros b Hb. simpl in Hb. apply not_elem_of_cons in Hb as [Hba Hb].
        apply Hframe; auto.
      * intros Hni. apply Hsame. simpl in Hni.
        apply not_elem_of_cons in Hni as [_ Hni]. exact Hni.
      * exact Hfreed.
Qed.

(** ** Allocation, ll_create, ll_toarray, ll_fromarray *)

Section WithAllocator.

Variable pick : gset loc -> loc.
Hypothesis pick_fresh : forall X : gset loc, pick X ∉ X.

Lemma pick_unused {V} (m : gmap loc V) : m !! pick (dom m) = None.
Proof. apply not_elem_of_dom, pick_fresh. Qed.

Lemma alloc_ok_S k s :
  alloc_ok (S k) s ->
  exists o, oracle s = true :: o /\ take k o = replicate k true.
Proof.
  unfold alloc_ok. destruct (oracle s) as [|b o]; simpl; [discriminate|].
  intros [= -> Ho]. eauto.
Qed.

Lemma alloc_ok_split k j s :
  alloc_ok (k + j) s ->
  alloc_ok k s /\ take j (drop k (oracle s)) = replicate j true.
Proof.
  unfold alloc_ok. generalize (oracle s) as o.
  induction k as [|k IH]; intros o; simpl.
  - intros H. rewrite take_0, drop_0. auto.
  - destruct o as [|c o]; simpl; [discriminate|].
    intros [= -> H]. destruct (IH o H) as [H1 H2]. by rewrite H1.
Qed.

Lemma ll_create_ok d s o :
  oracle s = true :: o ->
  ll_create pick d s =
  Done (Some (pick (dom (nodes s))))
       (State (<[pick (dom (nodes s)) := Node (Some d) (Some NULL)]> (nodes s))
              (arrays s) o).
Proof.
  intros Ho. unfold ll_create, bind, malloc_node. rewrite Ho.
  unfold store_data; simpl. rewrite lookup_insert_eq.
  unfold store_next; simpl. rewrite lookup_insert_eq.
  unfold ret. rewrite !insert_insert_eq. reflexivity.
Qed.

Lemma size_mul_int n :
  0 <= n <= INT_MAX -> size_mul sizeof_int n / sizeof_int = n.
Proof.
  intros Hn. unfold size_mul, sizeof_int, SIZE_MOD, INT_MAX in *.
  rewrite (Z.mod_small 4) by lia.
  rewrite (Z.mod_small n) by lia.
  rewrite Z.mod_small by lia.
  rewrite Z.mul_comm. apply Z.div_mul. lia.
Qed.

Lemma ll_toarray_loop_chain fuel b n cur i ns pre post s :
  chain (nodes s) cur ns ->
  arrays s !! b = Some (pre ++ post) ->
  length post = length ns ->
  i = Z.of_nat (length pre) ->
  n = i + Z.of_nat (length ns) ->
  n <= INT_MAX ->
  (length ns <= fuel)%nat ->
  ll_toarray_loop fuel (Some b) n cur i s =
  Done tt (State (nodes s)
                 (<[b := pre ++ (Some <$> values ns)]> (arrays s))
                 (oracle s)).
Proof.
  revert fuel cur i pre post s.
  induction ns as [|[a x] ns IH];
    intros fuel cur i pre post s Hc Hb Hpost Hi Hn Hmax Hfuel.
  - inversion Hc; subst. destruct post; [|discriminate].
    destruct fuel; simpl; unfold ret;
      rewrite insert_id by exact Hb; by rewrite state_eta.
  - inversion Hc as [|a' x' q ns' Ha Hq]. subst a' x' ns' cur.
    destruct post as [|c post]; [discriminate|].
    simpl in Hpost, Hfuel. rewrite length_cons in Hn.
    destruct fuel as [|f]; [lia|]. simpl.
    destruct (Z.ltb_spec i n) as [_|Hge]; [|lia].
    run (load_data_ok _ _ _ _ Ha).
    unfold bind at 1. unfold store_at. rewrite Hb.
    destruct (Z.leb_spec 0 i) as [_|Hneg]; [|lia].
    destruct (Z.ltb_spec i (Z.of_nat (length (pre ++ c :: post)))) as [_|Hout];
      [|rewrite length_app in Hout; simpl in Hout; lia].
    simpl.
    run (int_add_ok i 1 _ ltac:(unfold INT_MIN, INT_MAX in *; lia)).
    erewrite (bind_Done _ _ _ _ _ (load_next_ok (State (nodes s) _ _) _ _ _ Ha)).
    rewrite Hi, Nat2Z.id.
    rewrite insert_app_r_alt by lia. rewrite Nat.sub_diag. simpl.
    rewrite (IH f q _ (pre ++ [Some x]) post); simpl.
    + rewrite insert_insert_eq. rewrite <- app_assoc. reflexivity.
    + exact Hq.
    + rewrite lookup_insert_eq. rewrite <- app_assoc. reflexivity.
    + lia.
    + rewrite length_app. simpl. lia.
    + lia.
    + lia.
    + lia.
Qed.

Lemma ll_toarray_chain fuel head ns s o :
  chain (nodes s) head ns ->
  ns ≠ [] ->
  Z.of_nat (length ns) <= INT_MAX ->
  (length ns <= fuel)%nat ->
  oracle s = true :: o ->
  ll_toarray pick fuel head s =
  Done (Some (pick (dom (arrays s))))
       (State (nodes s)
              (<[pick (dom (arrays s)) := Some <$> values ns]> (arrays s))
              o).
Proof.
  intros Hc Hne Hmax Hfuel Ho.
  destruct Hc as [|a x q ns Ha Hq]; [contradiction|].
  assert (Hc : chain (nodes s) (Some a) ((a, x) :: ns)) by (econstructor; eauto).
  unfold ll_toarray.
  run (ll_size_chain _ _ _ _ Hc Hfuel Hmax).
  destruct (Z.eqb_spec (Z.of_nat (length ((a, x) :: ns))) 0) as [H0|_];
    [simpl in H0; lia|].
  unfold bind at 1. unfold malloc_ints. rewrite Ho.
  rewrite size_mul_int by lia. rewrite Nat2Z.id.
  set (b := pick (dom (arrays s))).
  set (n := length ((a, x) :: ns)) in *.
  set (s1 := State (nodes s) (<[b := replicate n None]> (arrays s)) o).
  assert (Hloop := ll_toarray_loop_chain fuel b (Z.of_nat n) (Some a) 0
                     ((a, x) :: ns) [] (replicate n None) s1 Hc
                     ltac:(apply lookup_insert_eq)
                     ltac:(apply length_replicate) eq_refl
                     ltac:(reflexivity) Hmax Hfuel).
  run Hloop.
  unfold ret. simpl. rewrite insert_insert_eq. reflexivity.
Qed.

Lemma load_at_ok s b cells i v :
  arrays s !! b = Some cells ->
  0 <= i ->
  cells !! Z.to_nat i = Some (Some v) ->
  load_at (Some b) i s = Done v s.
Proof.
  intros Hb Hi Hv. unfold load_at. rewrite Hb.
  destruct (Z.ltb_spec i 0); [lia|]. rewrite Hv. reflexivity.
Qed.

Lemma ll_fromarray_loop_ok dfuel fuel b cells len head nsd t x todo i s :
  arrays s !! b = Some cells ->
  (forall j d, todo !! j = Some d ->
               cells !! (Z.to_nat i + j)%nat = Some (Some d)) ->
  chain (nodes s) head (nsd ++ [(t, x)]) ->
  0 <= i ->
  len = i + Z.of_nat (length todo) ->
  len <= INT_MAX ->
  alloc_ok (length todo) s ->
  (length todo <= fuel)%nat ->
  exists h' ns',
    ll_fromarray_loop pick dfuel fuel (Some b) len head (Some t) i s
      = Done head (State h' (arrays s) (drop (length todo) (oracle s))) /\
    chain h' head ((nsd ++ [(t, x)]) ++ ns') /\
    values ns' = todo /\
    (forall a, a ∈ addrs ns' -> nodes s !! a = None) /\
    (forall a, a ≠ t -> a ∉ addrs ns' -> h' !! a = nodes s !! a).
Proof.
  revert fuel nsd t x i s.
  induction todo as [|d todo IH];
    intros fuel nsd t x i s Hb Hcells Hc Hi Hlen Hmax Halloc Hfuel.
  - exists (nodes s), []. simpl in Hlen.
    assert (Hstop : (i <? len) = false) by (apply Z.ltb_ge; lia).
    split; [|split; [|split; [|split]]].
    + destruct fuel; simpl; rewrite Hstop; unfold ret; by rewrite state_eta.
    + rewrite app_nil_r. exact Hc.
    + reflexivity.
    + intros a Ha. by apply elem_of_nil in Ha.
    + reflexivity.
  - rewrite length_cons in Hlen, Halloc, Hfuel.
    destruct fuel as [|f]; [lia|].
    destruct (alloc_ok_S _ _ Halloc) as (o & Ho & Hrest).
    assert (Hgo : (i <? len) = true) by (apply Z.ltb_lt; lia).
    set (n := pick (dom (nodes s))).
    assert (Hn : nodes s !! n = None) by apply pick_unused.
    assert (Ht : exists q, nodes s !! t = Some (Node (Some x) (Some q))).
    { destruct (chain_app_inv _ _ _ _ Hc) as [q Hq].
      inversion Hq; subst; eauto. }
    destruct Ht as [q Ht].
    assert (Htn : t ≠ n) by congruence.
    set (s2 := State (<[t := Node (Some x) (Some (Some n))]>
                        (<[n := Node (Some d) (Some NULL)]> (nodes s)))
                     (arrays s) o).
    destruct (IH f (nsd ++ [(t, x)]) n d (i + 1) s2) as
        (h' & ns' & Hrun & Hch & Hvals & Hnew & Hframe).
    + exact Hb.
    + intros j d' Hj. replace (Z.to_nat (i + 1) + j)%nat
        with (Z.to_nat i + S j)%nat by lia.
      apply Hcells. exact Hj.
    + apply chain_snoc; assumption.
    + lia.
    + lia.
    + exact Hmax.
    + exact Hrest.
    + lia.
    + exists h', ((n, d) :: ns'). split; [|split; [|split; [|split]]].
      * simpl ll_fromarray_loop. rewrite Hgo.
        run (load_at_ok s b cells i d Hb Hi
               ltac:(rewrite <- (Nat.add_0_r (Z.to_nat i));
                     apply Hcells; reflexivity)).
        run (ll_create_ok d s o Ho).
        fold n.
        set (s1 := State (<[n := Node (Some d) (Some NULL)]> (nodes s))
                         (arrays s) o).
        assert (Ht1 : nodes s1 !! t = Some (Node (Some x) (Some q)))
          by (simpl; rewrite lookup_insert_ne by done; exact Ht).
        run (store_next_ok s1 t _ _ (Some n) Ht1).
        simpl. fold s2.
        run (int_add_ok i 1 s2
               ltac:(unfold INT_MIN, INT_MAX in *; lia)).
        rewrite Hrun. simpl. rewrite Ho. reflexivity.
      * rewrite <- app_assoc in Hch. exact Hch.
      * simpl. rewrite Hvals. reflexivity.
      * intros a Ha. simpl in Ha. apply elem_of_cons in Ha as [->|Ha]; [exact Hn|].
        specialize (Hnew a Ha). simpl in Hnew.
        apply lookup_insert_None in Hnew as [Hnew _].
        apply lookup_insert_None in Hnew as [Hnew _]. exact Hnew.
      * intros a Hat Ha. simpl in Ha. apply not_elem_of_cons in Ha as [Han Ha].
        rewrite Hframe by assumption. simpl.
        rewrite !lookup_insert_ne by done. reflexivity.
Qed.

Lemma ll_fromarray_ok fuel b xs rest s :
  arrays s !! b = Some ((Some <$> xs) ++ rest) ->
  xs ≠ [] ->
  Z.of_nat (length xs) <= INT_MAX ->
  alloc_ok (length xs) s ->
  (length xs <= fuel)%nat ->
  exists h' ns',
    ll_fromarray pick fuel (Some b) (Z.of_nat (length xs)) s
      = Done (head_of ns') (State h' (arrays s) (drop (length xs) (oracle s))) /\
    chain h' (head_of ns') ns' /\
    values ns' = xs /\
    (forall a, a ∈ addrs ns' -> nodes s !! a = None) /\
    (forall a, a ∉ addrs ns' -> h' !! a = nodes s !! a).
Proof.
  intros Hb Hne Hmax Halloc Hfuel.
  destruct xs as [|x0 xs]; [contradiction|]. clear Hne.
  rewrite length_cons in *.
  destruct (alloc_ok_S _ _ Halloc) as (o & Ho & Hrest).
  set (n := pick (dom (nodes s))).
  assert (Hn : nodes s !! n = None) by apply pick_unused.
  set (s1 := State (<[n := Node (Some x0) (Some NULL)]> (nodes s)) (arrays s) o).
  destruct (ll_fromarray_loop_ok fuel fuel b ((Some <$> x0 :: xs) ++ rest)
              (Z.of_nat (S (length xs))) (Some n) [] n x0 xs 1 s1)
    as (h' & ns' & Hrun & Hch & Hvals & Hnew & Hframe).
  - exact Hb.
  - intros j d Hj. simpl. rewrite lookup_app_l.
    + rewrite list_lookup_fmap, Hj. reflexivity.
    + rewrite length_fmap. apply lookup_lt_Some in Hj. exact Hj.
  - simpl. econstructor; [apply lookup_insert_eq | constructor].
  - lia.
  - lia.
  - exact Hmax.
  - exact Hrest.
  - lia.
  - exists h', ((n, x0) :: ns'). split; [|split; [|split; [|split]]].
    + unfold ll_fromarray.
      destruct (Z.leb_spec (Z.of_nat (S (length xs))) 0) as [Hle|_]; [lia|].
      run (load_at_ok s b _ 0 x0 Hb ltac:(lia) ltac:(reflexivity)).
      run (ll_create_ok x0 s o Ho).
      fold n. fold s1. rewrite Hrun. simpl. rewrite Ho. reflexivity.
    + exact Hch.
    + simpl. rewrite Hvals. reflexivity.
    + intros a Ha. simpl in Ha. apply elem_of_cons in Ha as [->|Ha]; [exact Hn|].
      specialize (Hnew a Ha). simpl in Hnew.
      apply lookup_insert_None in Hnew as [Hnew _]. exact Hnew.
    + intros a Ha. simpl in Ha. apply not_elem_of_cons in Ha as [Han Ha].
      rewrite Hframe by assumption. simpl.
      rewrite lookup_insert_ne by done. reflexivity.
Qed.

(** ll_tail and ll_append on a non-empty list *)

Lemma ll_tail_loop_chain fuel a ns t x s :
  chain (nodes s) (Some a) (ns ++ [(t, x)]) ->
  (length ns <= fuel)%nat ->
  ll_tail_loop fuel (Some a) s = Done (Some t) s.
Proof.
  revert fuel a. induction ns as [|[b v] ns IH]; intros fuel a Hc Hfuel.
  - inversion Hc as [|a' x' q ns' Ha Hq]; subst.
    inversion Hq; subst.
    destruct fuel; simpl;
      run (load_next_ok _ _ _ _ Ha); reflexivity.
  - simpl in Hc, Hfuel. inversion Hc as [|a' v' q ns' Ha Hq]; subst.
    destruct fuel as [|f]; [lia|].
    assert (Hq' : exists c, q = Some c).
    { destruct ns as [|[c ?] ns]; inversion Hq; eauto. }
    destruct Hq' as [c ->]. simpl.
    run (load_next_ok _ _ _ _ Ha).
    run (load_next_ok _ _ _ _ Ha).
    apply IH; [exact Hq | lia].
Qed.

Lemma ll_append_chain fuel head ns t x d s o :
  chain (nodes s) head (ns ++ [(t, x)]) ->
  (length ns <= fuel)%nat ->
  oracle s = true :: o ->
  exists h' n,
    ll_append pick fuel head d s = Done tt (State h' (arrays s) o) /\
    chain h' head ((ns ++ [(t, x)]) ++ [(n, d)]) /\
    nodes s !! n = None.
Proof.
  intros Hc Hfuel Ho.
  assert (Hhead : exists a, head = Some a).
  { destruct ns as [|[a ?] ns]; inversion Hc; eauto. }
  destruct Hhead as [a ->].
  set (n := pick (dom (nodes s))).
  assert (Hn : nodes s !! n = None) by apply pick_unused.
  assert (Ht : exists q, nodes s !! t = Some (Node (Some x) (Some q))).
  { destruct (chain_app_inv _ _ _ _ Hc) as [q Hq]. inversion Hq; subst; eauto. }
  destruct Ht as [q Ht].
  assert (Htn : t ≠ n) by congruence.
  eexists _, n. split; [|split; [apply chain_snoc; eassumption | exact Hn]].
  unfold ll_append, ll_tail.
  run (ll_tail_loop_chain fuel a ns t x s Hc Hfuel).
  run (ll_create_ok d s o Ho). fold n.
  set (s1 := State (<[n := Node (Some d) (Some NULL)]> (nodes s)) (arrays s) o).
  assert (Ht1 : nodes s1 !! t = Some (Node (Some x) (Some q)))
    by (simpl; rewrite lookup_insert_ne by done; exact Ht).
  rewrite (store_next_ok s1 t _ _ (Some n) Ht1). reflexivity.
Qed.

(** ll_destroy, and the failure path of ll_fromarray *)

Lemma ll_destroy_chain fuel p ns s :
  chain (nodes s) p ns ->
  (length ns <= fuel)%nat ->
  exists h',
    ll_destroy fuel p s = Done tt (State h' (arrays s) (oracle s)) /\
    (forall a, a ∈ addrs ns -> h' !! a = None) /\
    (forall a, a ∉ addrs ns -> h' !! a = nodes s !! a).
Proof.
  revert fuel p s. induction ns as [|[a x] ns IH]; intros fuel p s Hc Hfuel.
  - inversion Hc; subst. exists (nodes s).
    split; [destruct fuel; simpl; unfold ret; by rewrite state_eta|].
    split; [intros a Ha; by apply elem_of_nil in Ha | reflexivity].
  - inversion Hc as [|a' x' q ns' Ha Hq]; subst.
    pose proof (chain_head_fresh _ _ _ _ _ Ha Hq) as Hfresh.
    simpl in Hfuel. destruct fuel as [|f]; [lia|]. simpl.
    run (load_next_ok _ _ _ _ Ha).
    run (free_node_ok _ _ _ Ha).
    set (s1 := State (delete a (nodes s)) (arrays s) (oracle s)).
    destruct (IH f q s1) as (h' & Hrun & Hgone & Hframe).
    + simpl. apply chain_delete_ne; assumption.
    + lia.
    + exists h'. split; [exact Hrun|]. split.
      * intros b Hb. simpl in Hb. apply elem_of_cons in Hb as [->|Hb].
        -- rewrite Hframe by exact Hfresh. apply lookup_delete_eq.
        -- by apply Hgone.
      * intros b Hb. simpl in Hb. apply not_elem_of_cons in Hb as [Hba Hb].
        rewrite Hframe by exact Hb. simpl. by apply lookup_delete_ne.
Qed.

Lemma ll_create_fail d s :
  hd false (oracle s) = false ->
  ll_create pick d s = Done NULL (State (nodes s) (arrays s) (tail (oracle s))).
Proof.
  unfold ll_create, bind, malloc_node.
  destruct (oracle s) as [|[|] o] eqn:Ho; simpl; try discriminate; intros _.
  - unfold ret. f_equal. destruct s; simpl in *. by rewrite Ho.
  - reflexivity.
Qed.

Lemma ll_fromarray_loop_fail dfuel fuel b cells len head nsd t x todo i k o s :
  arrays s !! b = Some cells ->
  (forall j d, todo !! j = Some d ->
               cells !! (Z.to_nat i + j)%nat = Some (Some d)) ->
  chain (nodes s) head (nsd ++ [(t, x)]) ->
  0 <= i ->
  len = i + Z.of_nat (length todo) ->
  len <= INT_MAX ->
  oracle s = replicate k true ++ o ->
  hd false o = false ->
  (k < length todo)%nat ->
  (length todo <= fuel)%nat ->
  (length nsd + 1 + k <= dfuel)%nat ->
  exists h',
    ll_fromarray_loop pick dfuel fuel (Some b) len head (Some t) i s
      = Done NULL (State h' (arrays s) (tail o)) /\
    (forall a, a ∈ addrs (nsd ++ [(t, x)]) -> h' !! a = None) /\
    (forall a, a ∉ addrs (nsd ++ [(t, x)]) -> h' !! a = nodes s !! a).
Proof.
  revert fuel nsd t x todo i s.
  induction k as [|k IH];
    intros fuel nsd t x todo i s Hb Hcells Hc Hi Hlen Hmax Ho Hfail Hk Hfuel Hd;
    (destruct todo as [|d todo]; [simpl in Hk; lia|]);
    rewrite length_cons in Hlen, Hk, Hfuel;
    (destruct fuel as [|f]; [lia|]);
    assert (Hgo : (i <? len) = true) by (apply Z.ltb_lt; lia);
    simpl ll_fromarray_loop; rewrite Hgo;
    run (load_at_ok s b cells i d Hb Hi
           ltac:(rewrite <- (Nat.add_0_r (Z.to_nat i));
                 apply Hcells; reflexivity)).
  - simpl in Ho.
    run (ll_create_fail d s ltac:(rewrite Ho; exact Hfail)).
    set (s1 := State (nodes s) (arrays s) (tail (oracle s))).
    destruct (ll_destroy_chain dfuel head (nsd ++ [(t, x)]) s1 Hc)
      as (h' & Hrun & Hgone & Hframe).
    { rewrite length_app. simpl. lia. }
    run Hrun. unfold ret. simpl. rewrite Ho.
    exists h'. auto.
  - simpl in Ho.
    set (n := pick (dom (nodes s))).
    assert (Hn : nodes s !! n = None) by apply pick_unused.
    assert (Ht : exists q, nodes s !! t = Some (Node (Some x) (Some q))).
    { destruct (chain_app_inv _ _ _ _ Hc) as [q Hq].
      inversion Hq; subst; eauto. }
    destruct Ht as [q Ht].
    assert (Htn : t ≠ n) by congruence.
    run (ll_create_ok d s _ Ho). fold n.
    set (s1 := State (<[n := Node (Some d) (Some NULL)]> (nodes s))
                     (arrays s) (replicate k true ++ o)).
    assert (Ht1 : nodes s1 !! t = Some (Node (Some x) (Some q)))
      by (simpl; rewrite lookup_insert_ne by done; exact Ht).
    run (store_next_ok s1 t _ _ (Some n) Ht1).
    simpl.
    set (s2 := State (<[t := Node (Some x) (Some (Some n))]>
                        (<[n := Node (Some d) (Some NULL)]> (nodes s)))
                     (arrays s) (replicate k true ++ o)).
    run (int_add_ok i 1 s2 ltac:(unfold INT_MIN, INT_MAX in *; lia)).
    destruct (IH f (nsd ++ [(t, x)]) n d todo (i + 1) s2)
      as (h' & Hrun & Hgone & Hframe).
    + exact Hb.
    + intros j d' Hj. replace (Z.to_nat (i + 1) + j)%nat
        with (Z.to_nat i + S j)%nat by lia.
      apply Hcells. exact Hj.
    + apply chain_snoc; assumption.
    + lia.
    + lia.
    + exact Hmax.
    + reflexivity.
    + exact Hfail.
    + lia.
    + lia.
    + rewrite length_app. simpl. lia.
    + exists h'. split; [exact Hrun|]. split.
      * intros a Ha. apply Hgone. unfold addrs in *.
        rewrite map_app, elem_of_app. by left.
      * intros a Ha. destruct (decide (a = n)) as [->|Han].
        -- rewrite Hn. apply Hgone. unfold addrs.
           rewrite map_app, elem_of_app. right. simpl. apply elem_of_cons. by left.
        -- rewrite Hframe; simpl.
           ++ assert (a ≠ t).
              { intros ->. apply Ha. unfold addrs.
                rewrite map_app, elem_of_app. right. simpl.
                apply elem_of_cons. by left. }
              by rewrite !lookup_insert_ne by done.
           ++ unfold addrs in *. rewrite map_app, elem_of_app. simpl.
              rewrite list_elem_of_singleton. tauto.
Qed.

(** X7: all or nothing.  When the [k+1]-th allocation fails, with [k]
    smaller than the number of elements, [ll_fromarray] returns [NULL] and
    the node store is what it was before the call: every node built so far
    has been freed. *)
Lemma ll_fromarray_all_or_nothing fuel b xs rest k o s :
  arrays s !! b = Some ((Some <$> xs) ++ rest) ->
  Z.of_nat (length xs) <= INT_MAX ->
  oracle s = replicate k true ++ o ->
  hd false o = false ->
  (k < length xs)%nat ->
  (length xs <= fuel)%nat ->
  ll_fromarray pick fuel (Some b) (Z.of_nat (length xs)) s
    = Done NULL (State (nodes s) (arrays s) (tail o)).
Proof.
  intros Hb Hmax Ho Hfail Hk Hfuel.
  destruct xs as [|x0 xs]; [simpl in Hk; lia|]. rewrite length_cons in *.
  unfold ll_fromarray.
  destruct (Z.leb_spec (Z.of_nat (S (length xs))) 0) as [Hle|_]; [lia|].
  run (load_at_ok s b _ 0 x0 Hb ltac:(lia) ltac:(reflexivity)).
  destruct k as [|k]; simpl in Ho.
  - run (ll_create_fail x0 s ltac:(rewrite Ho; exact Hfail)).
    unfold ret. by rewrite Ho.
  - run (ll_create_ok x0 s _ Ho).
    set (n := pick (dom (nodes s))).
    assert (Hn : nodes s !! n = None) by apply pick_unused.
    set (s1 := State (<[n := Node (Some x0) (Some NULL)]> (nodes s))
                     (arrays s) (replicate k true ++ o)).
    destruct (ll_fromarray_loop_fail fuel fuel b ((Some <$> x0 :: xs) ++ rest)
                (Z.of_nat (S (length xs))) (Some n) [] n x0 xs 1 k o s1)
      as (h' & Hrun & Hgone & Hframe).
    + exact Hb.
    + intros j d Hj. simpl. rewrite lookup_app_l.
      * rewrite list_lookup_fmap, Hj. reflexivity.
      * rewrite length_fmap. apply lookup_lt_Some in Hj. exact Hj.
    + simpl. econstructor; [apply lookup_insert_eq | constructor].
    + lia.
    + lia.
    + exact Hmax.
    + reflexivity.
    + exact Hfail.
    + lia.
    + lia.
    + simpl. lia.
    + rewrite Hrun. simpl. f_equal. f_equal. apply map_eq. intros a.
      destruct (decide (a = n)) as [->|Han].
      * rewrite Hn. apply Hgone. simpl. apply elem_of_cons. by left.
      * rewrite Hframe; simpl.
        -- by rewrite lookup_insert_ne by done.
        -- rewrite list_elem_of_singleton. exact Han.
Qed.

End WithAllocator.

(** ** Value-sequence facts *)

Lemma values_unlink_first v ns :
  values (unlink_first v ns) = remove_first v (values ns).
Proof.
  induction ns as [|[a x] ns IH]; simpl; [reflexivity|].
  destruct (x =? v); simpl; [reflexivity | by rewrite IH].
Qed.

Lemma remove_first_absent v l : v ∉ l -> remove_first v l = l.
Proof.
  induction l as [|x l IH]; simpl; [reflexivity|].
  intros Hni. apply not_elem_of_cons in Hni as [Hne Hni].
  destruct (Z.eqb_spec x v); [congruence | by rewrite IH].
Qed.

Lemma remove_first_split v pre post :
  v ∉ pre -> remove_first v (pre ++ v :: post) = pre ++ post.
Proof.
  induction pre as [|x pre IH]; simpl; intros Hni.
  - by rewrite Z.eqb_refl.
  - apply not_elem_of_cons in Hni as [Hne Hni].
    destruct (Z.eqb_spec x v); [congruence | by rewrite IH].
Qed.

Lemma unlink_first_absent v ns : v ∉ values ns -> unlink_first v ns = ns.
Proof.
  induction ns as [|[a x] ns IH]; simpl; [reflexivity|].
  intros Hni. apply not_elem_of_cons in Hni as [Hne Hni].
  destruct (Z.eqb_spec x v); [congruence | by rewrite IH].
Qed.

Lemma unlink_first_once v ns :
  count_occ Z.eq_dec (values ns) v = 1%nat ->
  S (length (unlink_first v ns)) = length ns /\ v ∉ values (unlink_first v ns).
Proof.
  induction ns as [|[a x] ns IH]; simpl; [discriminate|].
  destruct (Z.eq_dec x v) as [->|Hne].
  - rewrite Z.eqb_refl. intros [= Hc]. split; [reflexivity|].
    apply (count_occ_not_In Z.eq_dec) in Hc.
    intros Hin. apply Hc. by apply list_elem_of_In.
  - destruct (Z.eqb_spec x v); [congruence|]. intros Hc.
    destruct (IH Hc) as [Hlen Hni]. simpl. split; [by rewrite Hlen|].
    apply not_elem_of_cons. split; [congruence | exact Hni].
Qed.

(** ** The properties of the list module

    Standing assumptions, written out in each statement that needs them:
    the head pointer is a valid list ([chain]), its length fits an [int],
    the fuel covers the length, and [alloc_ok k] says that the [k] calls of
    [malloc] the scenario makes succeed. *)

Section Claims.

Variable pick : gset loc -> loc.
Hypothesis pick_fresh : forall X : gset loc, pick X ∉ X.

(** C1: for a valid non-empty list (a finite chain ending in [NULL], short
    enough for its length to be an [int]), [ll_size] returns the number of
    cells of the array that [ll_toarray] allocates and returns, when that
    allocation succeeds; the list itself is left as it was. *)
Theorem ll_size_toarray_length fuel head ns s :
  chain (nodes s) head ns ->
  ns ≠ [] ->
  Z.of_nat (length ns) <= INT_MAX ->
  (length ns <= fuel)%nat ->
  alloc_ok 1 s ->
  exists n arr s' cells,
    ll_size fuel head s = Done n s /\
    ll_toarray pick fuel head s = Done (Some arr) s' /\
    arrays s' !! arr = Some cells /\
    n = Z.of_nat (length cells) /\
    nodes s' = nodes s.
Proof.
  intros Hc Hne Hmax Hfuel Halloc.
  destruct (alloc_ok_S _ _ Halloc) as (o & Ho & _).
  eexists _, _, _, _.
  split; [apply (ll_size_chain _ _ _ _ Hc Hfuel Hmax)|].
  split; [apply (ll_toarray_chain pick _ _ _ _ _ Hc Hne Hmax Hfuel Ho)|].
  simpl. split; [apply lookup_insert_eq|].
  split; [|reflexivity].
  unfold values. by rewrite length_fmap, length_map.
Qed.

(** C2: for a non-empty list L, [ll_fromarray] applied to the array returned
    by [ll_toarray(L)] and to the length [ll_size(L)] builds, when the
    allocations succeed, a list whose values, in traversal order, are those
    of L.  The new list is made of new nodes and L is still there. *)
Theorem ll_toarray_fromarray_values fuel head ns s :
  chain (nodes s) head ns ->
  ns ≠ [] ->
  Z.of_nat (length ns) <= INT_MAX ->
  (length ns <= fuel)%nat ->
  alloc_ok (S (length ns)) s ->
  exists arr s1 n head' s2 ns',
    ll_toarray pick fuel head s = Done (Some arr) s1 /\
    ll_size fuel head s1 = Done n s1 /\
    ll_fromarray pick fuel (Some arr) n s1 = Done head' s2 /\
    chain (nodes s2) head' ns' /\
    values ns' = values ns /\
    chain (nodes s2) head ns /\
    (forall a, a ∈ addrs ns' -> a ∉ addrs ns).
Proof.
  intros Hc Hne Hmax Hfuel Halloc.
  destruct (alloc_ok_S _ _ Halloc) as (o & Ho & Hrest).
  set (b := pick (dom (arrays s))).
  set (s1 := State (nodes s) (<[b := Some <$> values ns]> (arrays s)) o).
  assert (Hlen : length (values ns) = length ns) by apply length_map.
  destruct (ll_fromarray_ok pick pick_fresh fuel b (values ns) [] s1)
    as (h' & ns' & Hrun & Hch & Hvals & Hnew & Hframe).
  - simpl. rewrite app_nil_r. apply lookup_insert_eq.
  - destruct ns; [contradiction | discriminate].
  - by rewrite Hlen.
  - unfold alloc_ok. simpl. by rewrite Hlen.
  - by rewrite Hlen.
  - rewrite Hlen in Hrun.
    assert (Hdisj : forall a, a ∈ addrs ns' -> a ∉ addrs ns).
    { intros a Ha Hin. specialize (Hnew a Ha). simpl in Hnew.
      destruct (chain_allocated _ _ _ _ Hc Hin) as [x Hx]. congruence. }
    eexists b, s1, (Z.of_nat (length ns)), (head_of ns'), _, ns'.
    split; [apply (ll_toarray_chain pick _ _ _ _ _ Hc Hne Hmax Hfuel Ho)|].
    split; [apply (ll_size_chain fuel head ns s1 Hc Hfuel Hmax)|].
    split; [exact Hrun|]. simpl.
    split; [exact Hch|]. split; [exact Hvals|]. split; [|exact Hdisj].
    eapply chain_frame; [exact Hc|].
    intros a Ha. apply Hframe. intros Hin. by apply (Hdisj a Hin).
Qed.

(** C3: when [v] occurs exactly once among the values of L, the list that
    [ll_remove(L, v)] returns has one node fewer than L and [ll_find] does
    not find [v] in it. *)
Theorem ll_remove_unique fuel head ns v s :
  chain (nodes s) head ns ->
  count_occ Z.eq_dec (values ns) v = 1%nat ->
  Z.of_nat (length ns) <= INT_MAX ->
  (length ns <= fuel)%nat ->
  exists n r s',
    ll_size fuel head s = Done n s /\
    ll_remove fuel head v s = Done r s' /\
    ll_size fuel r s' = Done (n - 1) s' /\
    ll_find fuel r v s' = Done NULL s'.
Proof.
  intros Hc Hone Hmax Hfuel.
  destruct (ll_remove_chain fuel head ns v s Hc Hfuel)
    as (h' & Hrun & Hch & _).
  destruct (unlink_first_once v ns Hone) as [Hlen Hni].
  set (s' := State h' (arrays s) (oracle s)) in *.
  exists (Z.of_nat (length ns)), (head_of (unlink_first v ns)), s'.
  split; [apply (ll_size_chain _ _ _ _ Hc Hfuel Hmax)|].
  split; [exact Hrun|]. split.
  - rewrite (ll_size_chain fuel _ (unlink_first v ns) s' Hch) by lia.
    f_equal. lia.
  - rewrite (ll_find_chain fuel _ (unlink_first v ns) v s' Hch) by lia.
    f_equal. by apply first_holding_null.
Qed.

(** C4: [ll_remove(L, v)] returns [NULL] exactly when L was empty or L was
    a single node holding [v], and in that second case that node has been
    freed; the pointer it returns differs from the head it was given exactly
    when the first node holding [v] is that head, and the node it frees is
    always the first node holding [v]. *)
Theorem ll_remove_result_head fuel head ns v s :
  chain (nodes s) head ns ->
  (length ns <= fuel)%nat ->
  exists r s',
    ll_remove fuel head v s = Done r s' /\
    (r = NULL <-> head = NULL \/ exists a, ns = [(a, v)]) /\
    (forall a, ns = [(a, v)] -> r = NULL /\ nodes s' !! a = None) /\
    (r ≠ head <-> exists a, head = Some a /\ first_holding v ns = Some a) /\
    (forall a, first_holding v ns = Some a -> nodes s' !! a = None).
Proof.
  intros Hc Hfuel.
  destruct (ll_remove_chain fuel head ns v s Hc Hfuel)
    as (h' & Hrun & Hch & _ & _ & Hfreed).
  eexists _, _. split; [exact Hrun|]. simpl.
  split; [|split; [|split; [|exact Hfreed]]].
  - destruct Hc as [|a x q ns Ha Hq]; simpl.
    + split; [by left | reflexivity].
    + destruct (Z.eqb_spec x v) as [->|Hne]; simpl.
      * split.
        -- intros Hnull. right. exists a.
           destruct ns as [|[? ?] ?]; [reflexivity | discriminate].
        -- intros [?|(a' & Heq)]; [discriminate|].
           inversion Heq; reflexivity.
      * split; [discriminate|].
        intros [?|(a' & Heq)]; [discriminate|]. inversion Heq; congruence.
  - intros a ->. simpl. rewrite Z.eqb_refl. simpl. split; [reflexivity|].
    apply Hfreed. simpl. by rewrite Z.eqb_refl.
  - destruct Hc as [|a x q ns Ha Hq]; simpl.
    + split; [congruence|]. intros (a & ? & _). discriminate.
    + pose proof (chain_head_fresh _ _ _ _ _ Ha Hq) as Hfresh.
      destruct (Z.eqb_spec x v) as [->|Hne]; simpl.
      * split; [intros _; eauto|]. intros _ Heq.
        destruct ns as [|[b y] ns]; [discriminate|].
        simpl in Heq. injection Heq as ->.
        apply Hfresh. simpl. apply elem_of_cons. by left.
      * split; [congruence|]. intros (a' & [= <-] & Hfh).
        apply first_holding_addr in Hfh. contradiction.
Qed.

(** C5: [ll_append] on an empty head does nothing: it returns normally, the
    memory (nodes, arrays and the allocator) is as before, so no node was
    created, and the size of the empty list is 0 before and after. *)
Theorem ll_append_null_noop fuel v s :
  ll_size fuel NULL s = Done 0 s /\
  ll_append pick fuel NULL v s = Done tt s /\
  (ll_append pick fuel NULL v ;;; ll_size fuel NULL) s = Done 0 s.
Proof.
  split; [|split].
  - destruct fuel; reflexivity.
  - reflexivity.
  - unfold bind. simpl. destruct fuel; reflexivity.
Qed.

(** C6: [ll_find(L, v)] returns [NULL] exactly when [v] is not among the
    values of L, and a node it returns is the first node of L, in traversal
    order, that holds [v]. *)
Theorem ll_find_first_match fuel head ns v s :
  chain (nodes s) head ns ->
  (length ns <= fuel)%nat ->
  exists r,
    ll_find fuel head v s = Done r s /\
    (r = NULL <-> v ∉ values ns) /\
    (forall a, r = Some a ->
       exists pre post, ns = pre ++ (a, v) :: post /\ v ∉ values pre).
Proof.
  intros Hc Hfuel. exists (first_holding v ns).
  split; [apply ll_find_chain; assumption|].
  split; [apply first_holding_null | apply first_holding_some].
Qed.

(** C7: when [v] is not among the values of L, [ll_remove(L, v)] returns the
    head it was given and changes nothing in memory, so that [ll_toarray]
    after the call does what it does before the call. *)
Theorem ll_remove_absent fuel head ns v s :
  chain (nodes s) head ns ->
  v ∉ values ns ->
  (length ns <= fuel)%nat ->
  ll_remove fuel head v s = Done head s /\
  (r <- ll_remove fuel head v ;; ll_toarray pick fuel r) s
    = ll_toarray pick fuel head s.
Proof.
  intros Hc Hni Hfuel.
  destruct (ll_remove_chain fuel head ns v s Hc Hfuel)
    as (h' & Hrun & _ & _ & Hsame & _).
  rewrite (Hsame Hni), state_eta in Hrun.
  rewrite (unlink_first_absent _ _ Hni), <- (chain_head_of _ _ _ Hc) in Hrun.
  split; [exact Hrun|]. by run Hrun.
Qed.

(** C8: [ll_fromarray] returns [NULL], and touches nothing, whenever the
    array pointer is [NULL] or [len <= 0], in particular on an empty array
    with [len = 0]; on the array [[7]] with [len = 1] and memory for one
    node it returns a list of one node holding 7. *)
Theorem ll_fromarray_degenerate fuel s :
  (forall arr len, arr = NULL \/ len <= 0 ->
     ll_fromarray pick fuel arr len s = Done NULL s) /\
  (forall b, arrays s !! b = Some [] ->
     ll_fromarray pick fuel (Some b) 0 s = Done NULL s) /\
  (forall b, arrays s !! b = Some [Some 7] -> alloc_ok 1 s ->
     exists a s',
       ll_fromarray pick fuel (Some b) 1 s = Done (Some a) s' /\
       chain (nodes s') (Some a) [(a, 7)]).
Proof.
  assert (Hdeg : forall arr len, arr = NULL \/ len <= 0 ->
            ll_fromarray pick fuel arr len s = Done NULL s).
  { intros arr len [->|Hlen]; [reflexivity|].
    unfold ll_fromarray. destruct arr; [|reflexivity].
    destruct (Z.leb_spec len 0); [reflexivity | lia]. }
  split; [exact Hdeg|]. split.
  - intros b _. apply Hdeg. right. lia.
  - intros b Hb Halloc.
    destruct (alloc_ok_S _ _ Halloc) as (o & Ho & _).
    eexists _, _. split.
    + unfold ll_fromarray. simpl.
      run (load_at_ok s b _ 0 7 Hb ltac:(lia) ltac:(reflexivity)).
      run (ll_create_ok pick 7 s o Ho).
      destruct fuel; reflexivity.
    + simpl. econstructor; [apply lookup_insert_eq | constructor].
Qed.

(** C9: for an array holding [xs] in its first [len >= 1] cells, with memory
    for [len] nodes and one array, the list [ll_fromarray] returns has
    [ll_size] equal to [len], and [ll_toarray] of it returns an array of
    exactly the elements [xs], in order. *)
Theorem ll_fromarray_toarray fuel b xs rest s :
  arrays s !! b = Some ((Some <$> xs) ++ rest) ->
  xs ≠ [] ->
  Z.of_nat (length xs) <= INT_MAX ->
  (length xs <= fuel)%nat ->
  alloc_ok (S (length xs)) s ->
  exists head s1 arr s2,
    ll_fromarray pick fuel (Some b) (Z.of_nat (length xs)) s = Done head s1 /\
    ll_size fuel head s1 = Done (Z.of_nat (length xs)) s1 /\
    ll_toarray pick fuel head s1 = Done (Some arr) s2 /\
    arrays s2 !! arr = Some (Some <$> xs).
Proof.
  intros Hb Hne Hmax Hfuel Halloc.
  replace (S (length xs)) with (length xs + 1)%nat in Halloc by lia.
  destruct (alloc_ok_split _ _ _ Halloc) as [Hfirst Hlast].
  destruct (ll_fromarray_ok pick pick_fresh fuel b xs rest s
              Hb Hne Hmax Hfirst Hfuel)
    as (h' & ns' & Hrun & Hch & Hvals & _).
  set (s1 := State h' (arrays s) (drop (length xs) (oracle s))) in *.
  assert (Hlen : length ns' = length xs)
    by (rewrite <- Hvals; symmetry; apply length_map).
  assert (Ho : exists o, oracle s1 = true :: o).
  { simpl. destruct (drop (length xs) (oracle s)) as [|c o]; [discriminate|].
    simpl in Hlast. injection Hlast as ->. eauto. }
  destruct Ho as [o Ho].
  eexists (head_of ns'), s1, (pick (dom (arrays s1))), _.
  split; [exact Hrun|].
  split; [rewrite <- Hlen; apply ll_size_chain; [exact Hch | lia | lia]|].
  split.
  - apply (ll_toarray_chain pick fuel _ ns' s1 o Hch); try lia; [|exact Ho].
    destruct ns'; [destruct xs; [contradiction | discriminate] | discriminate].
  - simpl. rewrite Hvals. apply lookup_insert_eq.
Qed.

(** C10: the values of the list [ll_remove(L, v)] returns are the values of
    L without the first occurrence of [v] (the values of L when [v] does not
    occur); the nodes that stay are the nodes of L, with their values, in
    their order. *)
Theorem ll_remove_values fuel head ns v s :
  chain (nodes s) head ns ->
  (length ns <= fuel)%nat ->
  exists r s' ns',
    ll_remove fuel head v s = Done r s' /\
    chain (nodes s') r ns' /\
    ns' = unlink_first v ns /\
    values ns' = remove_first v (values ns) /\
    (v ∉ values ns -> values ns' = values ns) /\
    (forall pre post, values ns = pre ++ v :: post -> v ∉ pre ->
                      values ns' = pre ++ post).
Proof.
  intros Hc Hfuel.
  destruct (ll_remove_chain fuel head ns v s Hc Hfuel) as (h' & Hrun & Hch & _).
  eexists _, _, _. split; [exact Hrun|]. simpl.
  split; [exact Hch|]. split; [reflexivity|].
  split; [apply values_unlink_first|]. split.
  - intros Hni. by rewrite unlink_first_absent.
  - intros pre post Hsplit Hni.
    rewrite values_unlink_first, Hsplit. by apply remove_first_split.
Qed.

End Claims.

(** ** Running the functions on concrete memories *)

Lemma demo_chain : chain (nodes demo_state) (Some 1%positive) demo_list.
Proof.
  apply chain_cons with (q := Some 2%positive); [reflexivity|].
  apply chain_cons with (q := Some 3%positive); [reflexivity|].
  apply chain_cons with (q := NULL); [reflexivity|].
  apply chain_nil.
Qed.

(** The driver of list.c, without its printing: a list 1, 2, 3 is built with
    [ll_create] and two [ll_append]s; its size is 3, 2 is found, 5 is not,
    and removing 1 leaves a list of size 2 headed by the node of 2. *)
Example driver_scenario :
  exists lst l2 s',
    (lst <- ll_create fresh 1 ;;
     ll_append fresh 3 lst 2 ;;;
     ll_append fresh 3 lst 3 ;;;
     n <- ll_size 3 lst ;;
     f2 <- ll_find 3 lst 2 ;;
     f5 <- ll_find 3 lst 5 ;;
     l2 <- ll_remove 3 lst 1 ;;
     n2 <- ll_size 3 l2 ;;
     ret (lst, n, f2, f5, l2, n2)) (State ∅ ∅ [true; true; true])
    = Done (Some lst, 3, Some l2, NULL, Some l2, 2) s' /\
    chain (nodes s') (Some l2) [(l2, 2); (fresh ({[lst; l2]} : gset loc), 3)].
Proof.
  eexists _, _, _. split; [vm_compute; reflexivity|].
  apply chain_cons with (q := Some 3%positive); [reflexivity|].
  apply chain_cons with (q := NULL); [reflexivity|].
  apply chain_nil.
Qed.

Lemma demo_bound : Z.of_nat (length demo_list) <= INT_MAX.
Proof. unfold INT_MAX. simpl. lia. Qed.

Lemma ll_size_toarray_length_witness :
  exists n arr s' cells,
    ll_size 3 (Some 1%positive) demo_state = Done n demo_state /\
    ll_toarray fresh 3 (Some 1%positive) demo_state = Done (Some arr) s' /\
    arrays s' !! arr = Some cells /\
    n = Z.of_nat (length cells) /\
    nodes s' = nodes demo_state.
Proof.
  apply (ll_size_toarray_length fresh 3 (Some 1%positive) demo_list demo_state).
  - exact demo_chain.
  - discriminate.
  - exact demo_bound.
  - simpl. lia.
  - reflexivity.
Defined.

Lemma ll_toarray_fromarray_values_witness :
  exists arr s1 n head' s2 ns',
    ll_toarray fresh 3 (Some 1%positive) demo_state = Done (Some arr) s1 /\
    ll_size 3 (Some 1%positive) s1 = Done n s1 /\
    ll_fromarray fresh 3 (Some arr) n s1 = Done head' s2 /\
    chain (nodes s2) head' ns' /\
    values ns' = values demo_list /\
    chain (nodes s2) (Some 1%positive) demo_list /\
    (forall a, a ∈ addrs ns' -> a ∉ addrs demo_list).
Proof.
  apply (ll_toarray_fromarray_values fresh (fun X => is_fresh X)
           3 (Some 1%positive) demo_list demo_state).
  - exact demo_chain.
  - discriminate.
  - exact demo_bound.
  - simpl. lia.
  - reflexivity.
Defined.

Lemma ll_remove_unique_witness :
  exists n r s',
    ll_size 3 (Some 1%positive) demo_state = Done n demo_state /\
    ll_remove 3 (Some 1%positive) 2 demo_state = Done r s' /\
    ll_size 3 r s' = Done (n - 1) s' /\
    ll_find 3 r 2 s' = Done NULL s'.
Proof.
  apply (ll_remove_unique 3 (Some 1%positive) demo_list 2 demo_state).
  - exact demo_chain.
  - reflexivity.
  - exact demo_bound.
  - simpl. lia.
Defined.

Lemma ll_remove_result_head_witness :
  exists r s',
    ll_remove 1 (Some 1%positive) 7 sole_state = Done r s' /\
    (r = NULL <-> Some 1%positive = NULL \/ exists a, sole_list = [(a, 7)]) /\
    (forall a, sole_list = [(a, 7)] -> r = NULL /\ nodes s' !! a = None) /\
    (r ≠ Some 1%positive <->
       exists a, Some 1%positive = Some a /\
                 first_holding 7 sole_list = Some a) /\
    (forall a, first_holding 7 sole_list = Some a -> nodes s' !! a = None).
Proof.
  apply (ll_remove_result_head 1 (Some 1%positive) sole_list 7 sole_state).
  - apply chain_cons with (q := NULL); [reflexivity | apply chain_nil].
  - simpl. lia.
Defined.

Lemma ll_find_first_match_witness :
  exists r,
    ll_find 3 (Some 1%positive) 2 demo_state = Done r demo_state /\
    (r = NULL <-> 2 ∉ values demo_list) /\
    (forall a, r = Some a ->
       exists pre post, demo_list = pre ++ (a, 2) :: post /\ 2 ∉ values pre).
Proof.
  apply (ll_find_first_match 3 (Some 1%positive) demo_list 2 demo_state).
  - exact demo_chain.
  - simpl. lia.
Defined.

Lemma ll_remove_absent_witness :
  ll_remove 3 (Some 1%positive) 5 demo_state = Done (Some 1%positive) demo_state /\
  (r <- ll_remove 3 (Some 1%positive) 5 ;; ll_toarray fresh 3 r) demo_state
    = ll_toarray fresh 3 (Some 1%positive) demo_state.
Proof.
  apply (ll_remove_absent fresh 3 (Some 1%positive) demo_list 5 demo_state).
  - exact demo_chain.
  - simpl. rewrite !not_elem_of_cons. repeat split; try discriminate.
    apply not_elem_of_nil.
  - simpl. lia.
Defined.

Lemma ll_fromarray_degenerate_witness :
  ll_fromarray fresh 0 NULL 3 seven_state = Done NULL seven_state /\
  ll_fromarray fresh 0 (Some 2%positive) (-1) seven_state = Done NULL seven_state /\
  ll_fromarray fresh 0 (Some 1%positive) 0 seven_state = Done NULL seven_state /\
  exists a s',
    ll_fromarray fresh 0 (Some 2%positive) 1 seven_state = Done (Some a) s' /\
    chain (nodes s') (Some a) [(a, 7)].
Proof.
  destruct (ll_fromarray_degenerate fresh 0 seven_state) as (Hdeg & Hnil & Hone).
  split; [apply Hdeg; left; reflexivity|].
  split; [apply Hdeg; right; lia|].
  split; [apply Hnil; reflexivity|].
  apply Hone; reflexivity.
Defined.

Lemma ll_fromarray_toarray_witness :
  exists head s1 arr s2,
    ll_fromarray fresh 3 (Some 1%positive) 3 demo_array_state = Done head s1 /\
    ll_size 3 head s1 = Done 3 s1 /\
    ll_toarray fresh 3 head s1 = Done (Some arr) s2 /\
    arrays s2 !! arr = Some [Some 7; Some 8; Some 9].
Proof.
  apply (ll_fromarray_toarray fresh (fun X => is_fresh X)
           3 1%positive [7; 8; 9] [] demo_array_state).
  - reflexivity.
  - discriminate.
  - unfold INT_MAX. simpl. lia.
  - simpl. lia.
  - reflexivity.
Defined.

Lemma ll_remove_values_witness :
  exists r s' ns',
    ll_remove 3 (Some 1%positive) 2 demo_state = Done r s' /\
    chain (nodes s') r ns' /\
    ns' = unlink_first 2 demo_list /\
    values ns' = remove_first 2 (values demo_list) /\
    (2 ∉ values demo_list -> values ns' = values demo_list) /\
    (forall pre post, values demo_list = pre ++ 2 :: post -> 2 ∉ pre ->
                      values ns' = pre ++ post).
Proof.
  apply (ll_remove_values 3 (Some 1%positive) demo_list 2 demo_state).
  - exact demo_chain.
  - simpl. lia.
Defined.

(** ** Further properties of the module *)

Lemma nonempty_snoc (ns : list (loc * Z)) :
  ns ≠ [] -> exists ns0 t x, ns = ns0 ++ [(t, x)].
Proof.
  induction ns as [|[t x] ns _] using rev_ind; [contradiction|]. eauto.
Qed.

Lemma last_ptr_snoc ns t x : last_ptr (ns ++ [(t, x)]) = Some t.
Proof. unfold last_ptr. by rewrite last_snoc. Qed.

Lemma chain_last_node h p ns t x :
  chain h p (ns ++ [(t, x)]) -> h !! t = Some (Node (Some x) (Some NULL)).
Proof.
  intros Hc. destruct (chain_app_inv _ _ _ _ Hc) as [q Hq].
  inversion Hq as [|t' x' q' ns' Ht Hnil]; subst. by inversion Hnil; subst.
Qed.

(** Two chains over the same nodes store the same thing at each of them. *)
Lemma chain_agree h h' p ns a :
  chain h p ns -> chain h' p ns -> a ∈ addrs ns -> h !! a = h' !! a.
Proof.
  intros Hc; revert h'. induction Hc as [|b v q ns Hb Hq IH]; intros h' Hc' Ha.
  - by apply elem_of_nil in Ha.
  - inversion Hc' as [|b' v' q' ns' Hb' Hq']; subst.
    assert (q' = q)
      by (rewrite (chain_head_of _ _ _ Hq), (chain_head_of _ _ _ Hq'); reflexivity).
    subst q'.
    simpl in Ha. apply elem_of_cons in Ha as [->|Ha]; [congruence|].
    apply IH; assumption.
Qed.

Section Further.

Variable pick : gset loc -> loc.
Hypothesis pick_fresh : forall X : gset loc, pick X ∉ X.

(** X1: [ll_tail] returns the last node of the list, the one whose [next]
    is [NULL] ([NULL] for the empty list), and changes nothing. *)
Theorem ll_tail_last fuel head ns s :
  chain (nodes s) head ns ->
  (length ns <= fuel)%nat ->
  ll_tail fuel head s = Done (last_ptr ns) s /\
  (last_ptr ns = NULL <-> head = NULL) /\
  (forall t, last_ptr ns = Some t ->
     exists v, nodes s !! t = Some (Node (Some v) (Some NULL))).
Proof.
  intros Hc Hfuel. destruct ns as [|[a v] ns].
  - inversion Hc; subst. split; [reflexivity|]. split; [done | discriminate].
  - assert (Hhead : head = Some a) by (inversion Hc; reflexivity). subst head.
    destruct (nonempty_snoc ((a, v) :: ns) ltac:(discriminate))
      as (ns0 & t & x & Heq).
    rewrite Heq in *. rewrite last_ptr_snoc.
    split; [|split].
    + unfold ll_tail. apply (ll_tail_loop_chain fuel a ns0 t x s Hc).
      rewrite length_app in Hfuel. simpl in Hfuel. lia.
    + split; discriminate.
    + intros t' [= <-]. exists x. by apply (chain_last_node _ _ _ _ _ Hc).
Qed.

(** X2: [ll_create] never faults and consumes one answer of the allocator.
    It returns [NULL] exactly when the allocation fails, and then the node
    store is as before; when the allocation succeeds it returns a node at an
    address that was not in use, holding [d] and no successor.  In both
    cases the arrays and every list already in memory are as before. *)
Theorem ll_create_spec d s :
  exists r s',
    ll_create pick d s = Done r s' /\
    (r = NULL <-> hd false (oracle s) = false) /\
    oracle s' = tail (oracle s) /\
    arrays s' = arrays s /\
    (forall p ns, chain (nodes s) p ns -> chain (nodes s') p ns) /\
    match r with
    | None => nodes s' = nodes s
    | Some a =>
        nodes s !! a = None /\
        nodes s' = <[a := Node (Some d) (Some NULL)]> (nodes s) /\
        chain (nodes s') r [(a, d)] /\
        ll_size 1 r s' = Done 1 s' /\
        ll_find 1 r d s' = Done r s'
    end.
Proof.
  destruct (hd false (oracle s)) eqn:Hhd.
  - destruct (oracle s) as [|[|] o] eqn:Ho; try discriminate.
    pose proof (pick_unused pick pick_fresh (nodes s)) as Hn.
    set (a := pick (dom (nodes s))) in *.
    set (s' := State (<[a := Node (Some d) (Some NULL)]> (nodes s)) (arrays s) o).
    assert (Hch : chain (nodes s') (Some a) [(a, d)])
      by (econstructor; [apply lookup_insert_eq | constructor]).
    exists (Some a), s'. split; [apply (ll_create_ok pick d s o Ho)|].
    split; [split; discriminate|]. split; [reflexivity|].
    split; [reflexivity|]. split.
    + intros p ns Hc. by apply chain_insert_fresh.
    + split; [exact Hn|]. split; [reflexivity|]. split; [exact Hch|]. split.
      * apply (ll_size_chain 1 (Some a) [(a, d)] s' Hch);
          [simpl; lia | unfold INT_MAX; simpl; lia].
      * rewrite (ll_find_chain 1 (Some a) [(a, d)] d s' Hch) by (simpl; lia).
        simpl. by rewrite Z.eqb_refl.
  - eexists _, _. split; [apply (ll_create_fail pick d s Hhd)|]. simpl.
    split; [done|]. split; [reflexivity|]. split; [reflexivity|]. auto.
Qed.

(** X3: on a non-empty list, when the allocation succeeds, [ll_append]
    links one new node holding [d] after the last node: the head is the
    same, the nodes before are the same in the same order, the new node is
    the tail, and the size has grown by one. *)
Theorem ll_append_links_at_tail fuel head ns d s :
  chain (nodes s) head ns ->
  ns ≠ [] ->
  (length ns <= fuel)%nat ->
  Z.of_nat (length ns) < INT_MAX ->
  alloc_ok 1 s ->
  exists n s',
    ll_append pick fuel head d s = Done tt s' /\
    nodes s !! n = None /\
    chain (nodes s') head (ns ++ [(n, d)]) /\
    arrays s' = arrays s /\
    ll_tail (S fuel) head s' = Done (Some n) s' /\
    ll_size (S fuel) head s' = Done (Z.of_nat (length ns) + 1) s'.
Proof.
  intros Hc Hne Hfuel Hmax Halloc.
  destruct (alloc_ok_S _ _ Halloc) as (o & Ho & _).
  destruct (nonempty_snoc ns Hne) as (ns0 & t & x & ->).
  rewrite length_app in Hfuel, Hmax. simpl in Hfuel, Hmax.
  destruct (ll_append_chain pick pick_fresh fuel head ns0 t x d s o Hc
              ltac:(lia) Ho) as (h' & n & Hrun & Hch & Hn).
  set (s' := State h' (arrays s) o) in *.
  assert (Hhead : exists a, head = Some a).
  { destruct ns0 as [|[a ?] ?]; inversion Hc; eauto. }
  destruct Hhead as [a ->].
  exists n, s'. split; [exact Hrun|]. split; [exact Hn|].
  split; [exact Hch|]. split; [reflexivity|]. split.
  - unfold ll_tail.
    apply (ll_tail_loop_chain (S fuel) a (ns0 ++ [(t, x)]) n d s' Hch).
    rewrite length_app. simpl. lia.
  - rewrite (ll_size_chain (S fuel) (Some a) _ s' Hch).
    + f_equal. rewrite !length_app. simpl. lia.
    + rewrite !length_app. simpl. lia.
    + rewrite !length_app. simpl. lia.
Qed.

(** X4: on a non-empty list, when the allocation fails, [ll_append] returns
    normally and leaves nodes and arrays exactly as they were. *)
Theorem ll_append_alloc_failure fuel head ns d s :
  chain (nodes s) head ns ->
  ns ≠ [] ->
  (length ns <= fuel)%nat ->
  hd false (oracle s) = false ->
  ll_append pick fuel head d s
    = Done tt (State (nodes s) (arrays s) (tail (oracle s))).
Proof.
  intros Hc Hne Hfuel Hfail.
  destruct (nonempty_snoc ns Hne) as (ns0 & t & x & ->).
  rewrite length_app in Hfuel. simpl in Hfuel.
  assert (Hhead : exists a, head = Some a).
  { destruct ns0 as [|[a ?] ?]; inversion Hc; eauto. }
  destruct Hhead as [a ->].
  unfold ll_append, ll_tail.
  run (ll_tail_loop_chain fuel a ns0 t x s Hc ltac:(lia)).
  run (ll_create_fail pick d s Hfail). reflexivity.
Qed.

(** X5: [ll_destroy] frees every node of the list and nothing else: after
    it, an address is allocated exactly when it was allocated before and is
    not a node of the list, and what is stored there is unchanged. *)
Theorem ll_destroy_frees_list fuel head ns s :
  chain (nodes s) head ns ->
  (length ns <= fuel)%nat ->
  exists s',
    ll_destroy fuel head s = Done tt s' /\
    arrays s' = arrays s /\
    oracle s' = oracle s /\
    (forall a, nodes s' !! a =
               if decide (a ∈ addrs ns) then None else nodes s !! a) /\
    dom (nodes s') = dom (nodes s) ∖ list_to_set (addrs ns).
Proof.
  intros Hc Hfuel.
  destruct (ll_destroy_chain fuel head ns s Hc Hfuel)
    as (h' & Hrun & Hgone & Hframe).
  eexists. split; [exact Hrun|]. simpl.
  split; [reflexivity|]. split; [reflexivity|].
  assert (Hall : forall a, h' !! a =
                   if decide (a ∈ addrs ns) then None else nodes s !! a).
  { intros a. destruct (decide (a ∈ addrs ns)); auto. }
  split; [exact Hall|].
  apply set_eq. intros a.
  rewrite elem_of_difference, !elem_of_dom, elem_of_list_to_set, Hall.
  destruct (decide (a ∈ addrs ns)) as [Hin|Hni].
  - split; [intros [? ?]; discriminate | tauto].
  - tauto.
Qed.

(** X6: after [ll_destroy] of a non-empty list the old head is dangling:
    destroying it again, or passing it to [ll_size] or [ll_find], is a use
    of freed memory. *)
Theorem ll_destroy_leaves_dangling fuel head ns v s :
  chain (nodes s) head ns ->
  ns ≠ [] ->
  (length ns <= fuel)%nat ->
  exists s',
    ll_destroy fuel head s = Done tt s' /\
    ll_destroy fuel head s' = Fault /\
    ll_size fuel head s' = Fault /\
    ll_find fuel head v s' = Fault.
Proof.
  intros Hc Hne Hfuel.
  destruct (ll_destroy_chain fuel head ns s Hc Hfuel)
    as (h' & Hrun & Hgone & _).
  destruct Hc as [|a x q ns Ha Hq]; [contradiction|].
  assert (Hfreed : h' !! a = None) by (apply Hgone; simpl; apply elem_of_cons; by left).
  simpl in Hfuel. destruct fuel as [|f]; [lia|].
  eexists. split; [exact Hrun|].
  split; [|split]; unfold ll_size; simpl;
    unfold bind, int_add, load_next, load_data; simpl;
    rewrite Hfreed; reflexivity.
Qed.

(** X8: the list [ll_fromarray] builds is made of nodes at addresses that
    were not in use, holds the elements in order, and the call leaves the
    input array, the other arrays and every list already in memory as they
    were. *)
Theorem ll_fromarray_fresh_nodes fuel b xs rest s :
  arrays s !! b = Some ((Some <$> xs) ++ rest) ->
  xs ≠ [] ->
  Z.of_nat (length xs) <= INT_MAX ->
  alloc_ok (length xs) s ->
  (length xs <= fuel)%nat ->
  exists head s' ns',
    ll_fromarray pick fuel (Some b) (Z.of_nat (length xs)) s = Done head s' /\
    chain (nodes s') head ns' /\
    values ns' = xs /\
    arrays s' = arrays s /\
    (forall a, a ∈ addrs ns' -> nodes s !! a = None) /\
    (forall p ns0, chain (nodes s) p ns0 -> chain (nodes s') p ns0).
Proof.
  intros Hb Hne Hmax Halloc Hfuel.
  destruct (ll_fromarray_ok pick pick_fresh fuel b xs rest s
              Hb Hne Hmax Halloc Hfuel)
    as (h' & ns' & Hrun & Hch & Hvals & Hnew & Hframe).
  eexists _, _, ns'. split; [exact Hrun|]. simpl.
  split; [exact Hch|]. split; [exact Hvals|]. split; [reflexivity|].
  split; [exact Hnew|].
  intros p ns0 Hc0. eapply chain_frame; [exact Hc0|].
  intros a Ha. apply Hframe. intros Hin.
  destruct (chain_allocated _ _ _ _ Hc0 Ha) as [y Hy].
  specialize (Hnew a Hin). congruence.
Qed.

Lemma ll_fromarray_loop_oob dfuel fuel b cells len head nsd t x todo i s :
  arrays s !! b = Some cells ->
  (forall j d, todo !! j = Some d ->
               cells !! (Z.to_nat i + j)%nat = Some (Some d)) ->
  cells !! (Z.to_nat i + length todo)%nat = None ->
  chain (nodes s) head (nsd ++ [(t, x)]) ->
  0 <= i ->
  i + Z.of_nat (length todo) < len ->
  len <= INT_MAX ->
  alloc_ok (length todo) s ->
  (length todo < fuel)%nat ->
  ll_fromarray_loop pick dfuel fuel (Some b) len head (Some t) i s = Fault.
Proof.
  revert fuel nsd t x i s.
  induction todo as [|d todo IH];
    intros fuel nsd t x i s Hb Hcells Hend Hc Hi Hlen Hmax Halloc Hfuel;
    (destruct fuel as [|f]; [simpl in Hfuel; lia|]);
    assert (Hgo : (i <? len) = true)
      by (apply Z.ltb_lt; rewrite ?length_cons in Hlen; lia);
    simpl ll_fromarray_loop; rewrite Hgo.
  - simpl in Hend. rewrite Nat.add_0_r in Hend.
    unfold bind, load_at. rewrite Hb.
    destruct (Z.ltb_spec i 0); [lia|]. by rewrite Hend.
  - rewrite length_cons in Hlen, Halloc, Hfuel, Hend.
    destruct (alloc_ok_S _ _ Halloc) as (o & Ho & Hrest).
    set (n := pick (dom (nodes s))).
    assert (Hn : nodes s !! n = None) by apply (pick_unused pick pick_fresh).
    pose proof (chain_last_node _ _ _ _ _ Hc) as Ht.
    assert (Htn : t ≠ n) by congruence.
    run (load_at_ok s b cells i d Hb Hi
           ltac:(rewrite <- (Nat.add_0_r (Z.to_nat i));
                 apply Hcells; reflexivity)).
    run (ll_create_ok pick d s o Ho). fold n.
    set (s1 := State (<[n := Node (Some d) (Some NULL)]> (nodes s))
                     (arrays s) o).
    assert (Ht1 : nodes s1 !! t = Some (Node (Some x) (Some NULL)))
      by (simpl; rewrite lookup_insert_ne by done; exact Ht).
    run (store_next_ok s1 t _ _ (Some n) Ht1). simpl.
    set (s2 := State (<[t := Node (Some x) (Some (Some n))]>
                        (<[n := Node (Some d) (Some NULL)]> (nodes s)))
                     (arrays s) o).
    run (int_add_ok i 1 s2 ltac:(unfold INT_MIN, INT_MAX in *; lia)).
    apply (IH f (nsd ++ [(t, x)]) n d (i + 1) s2).
    + exact Hb.
    + intros j d' Hj. replace (Z.to_nat (i + 1) + j)%nat
        with (Z.to_nat i + S j)%nat by lia.
      apply Hcells. exact Hj.
    + replace (Z.to_nat (i + 1) + length todo)%nat
        with (Z.to_nat i + S (length todo))%nat by lia. exact Hend.
    + apply chain_snoc; assumption.
    + lia.
    + lia.
    + exact Hmax.
    + exact Hrest.
    + lia.
Qed.

(** X9: [ll_fromarray] trusts [len].  When [len] is larger than the array
    and memory does not run out first, the loop reads past the end of the
    array. *)
Theorem ll_fromarray_out_of_bounds fuel b xs len s :
  arrays s !! b = Some (Some <$> xs) ->
  Z.of_nat (length xs) < len ->
  len <= INT_MAX ->
  alloc_ok (length xs) s ->
  (length xs <= fuel)%nat ->
  ll_fromarray pick fuel (Some b) len s = Fault.
Proof.
  intros Hb Hlen Hmax Halloc Hfuel. unfold ll_fromarray.
  destruct (Z.leb_spec len 0) as [Hle|_]; [lia|].
  destruct xs as [|x0 xs].
  - unfold bind, load_at. rewrite Hb. reflexivity.
  - rewrite length_cons in *.
    destruct (alloc_ok_S _ _ Halloc) as (o & Ho & Hrest).
    run (load_at_ok s b _ 0 x0 Hb ltac:(lia) ltac:(reflexivity)).
    run (ll_create_ok pick x0 s o Ho).
    set (n := pick (dom (nodes s))).
    set (s1 := State (<[n := Node (Some x0) (Some NULL)]> (nodes s)) (arrays s) o).
    apply (ll_fromarray_loop_oob fuel fuel b (Some <$> x0 :: xs) len (Some n)
             [] n x0 xs 1 s1).
    + exact Hb.
    + intros j d Hj. simpl. rewrite list_lookup_fmap, Hj. reflexivity.
    + simpl. apply lookup_ge_None. rewrite length_fmap. lia.
    + simpl. econstructor; [apply lookup_insert_eq | constructor].
    + lia.
    + lia.
    + exact Hmax.
    + exact Hrest.
    + lia.
Qed.

(** X10: the array [ll_toarray] returns is a copy: removing a node from the
    list afterwards changes the list and leaves the array as it was. *)
Theorem ll_toarray_is_copy fuel head ns v s :
  chain (nodes s) head ns ->
  ns ≠ [] ->
  Z.of_nat (length ns) <= INT_MAX ->
  (length ns <= fuel)%nat ->
  alloc_ok 1 s ->
  exists arr s1 r s2,
    ll_toarray pick fuel head s = Done (Some arr) s1 /\
    ll_remove fuel head v s1 = Done r s2 /\
    chain (nodes s2) r (unlink_first v ns) /\
    arrays s2 !! arr = Some (Some <$> values ns).
Proof.
  intros Hc Hne Hmax Hfuel Halloc.
  destruct (alloc_ok_S _ _ Halloc) as (o & Ho & _).
  set (b := pick (dom (arrays s))).
  set (s1 := State (nodes s) (<[b := Some <$> values ns]> (arrays s)) o).
  destruct (ll_remove_chain fuel head ns v s1 Hc Hfuel)
    as (h' & Hrun & Hch & _).
  eexists b, s1, _, _.
  split; [apply (ll_toarray_chain pick _ _ _ _ _ Hc Hne Hmax Hfuel Ho)|].
  split; [exact Hrun|]. simpl. split; [exact Hch|]. apply lookup_insert_eq.
Qed.

Lemma ll_toarray_fail fuel head ns s :
  chain (nodes s) head ns ->
  ns ≠ [] ->
  Z.of_nat (length ns) <= INT_MAX ->
  (length ns <= fuel)%nat ->
  hd false (oracle s) = false ->
  ll_toarray pick fuel head s
    = Done NULL (State (nodes s) (arrays s) (tail (oracle s))).
Proof.
  intros Hc Hne Hmax Hfuel Hfail.
  destruct Hc as [|a x q ns Ha Hq]; [contradiction|].
  assert (Hc : chain (nodes s) (Some a) ((a, x) :: ns)) by (econstructor; eauto).
  unfold ll_toarray.
  run (ll_size_chain _ _ _ _ Hc Hfuel Hmax).
  destruct (Z.eqb_spec (Z.of_nat (length ((a, x) :: ns))) 0) as [H0|_];
    [simpl in H0; lia|].
  unfold bind, malloc_ints.
  destruct (oracle s) as [|[|] o] eqn:Ho; simpl in *; try discriminate.
  - unfold ret. f_equal. destruct s; simpl in *. by rewrite Ho.
  - reflexivity.
Qed.

(** X11: on a valid list whose length fits an [int], [ll_toarray] never
    faults and never changes a node.  It returns [NULL] exactly when the
    list is empty or the allocation fails: for the empty list it does not
    call [malloc] and the memory is as before, and on a failed allocation
    the arrays are as before.  Otherwise, for a non-empty list and a
    successful allocation, it consumes that one allocation and returns a
    new array, at an address that was not in use, holding the values of the
    list in order, the other arrays being as before. *)
Theorem ll_toarray_spec fuel head ns s :
  chain (nodes s) head ns ->
  Z.of_nat (length ns) <= INT_MAX ->
  (length ns <= fuel)%nat ->
  exists r s',
    ll_toarray pick fuel head s = Done r s' /\
    nodes s' = nodes s /\
    (r = NULL <-> ns = [] \/ hd false (oracle s) = false) /\
    (ns = [] -> s' = s) /\
    (ns ≠ [] -> oracle s' = tail (oracle s)) /\
    match r with
    | None => arrays s' = arrays s
    | Some arr =>
        arrays s !! arr = None /\
        arrays s' !! arr = Some (Some <$> values ns) /\
        arrays s' = <[arr := Some <$> values ns]> (arrays s)
    end.
Proof.
  intros Hc Hmax Hfuel.
  destruct ns as [|[a x] ns].
  - inversion Hc; subst. exists NULL, s. simpl.
    split; [reflexivity|]. split; [reflexivity|].
    split; [split; auto|]. split; [reflexivity|]. split; [done | reflexivity].
  - destruct (hd false (oracle s)) eqn:Hhd.
    + destruct (oracle s) as [|[|] o] eqn:Ho; try discriminate.
      eexists _, _. split.
      { apply (ll_toarray_chain pick fuel head _ s o Hc); done. }
      simpl. split; [reflexivity|]. split.
      { split; [discriminate|]. intros [?|?]; discriminate. }
      split; [discriminate|]. split; [reflexivity|].
      split; [apply (pick_unused pick pick_fresh)|].
      split; [apply lookup_insert_eq | reflexivity].
    + eexists _, _. split.
      { apply (ll_toarray_fail fuel head _ s Hc); done. }
      simpl. split; [reflexivity|]. split; [split; auto|].
      split; [discriminate|]. split; reflexivity.
Qed.

Lemma addrs_unlink_first v ns a :
  a ∈ addrs ns -> first_holding v ns = Some a \/ a ∈ addrs (unlink_first v ns).
Proof.
  induction ns as [|[b x] ns IH]; simpl; intros Ha.
  - by apply elem_of_nil in Ha.
  - apply elem_of_cons in Ha as [->|Ha]; destruct (x =? v); simpl; auto.
    + right. apply elem_of_cons. by left.
    + destruct (IH Ha); auto. right. apply elem_of_cons. by right.
Qed.

Lemma unlink_first_sub v ns p : p ∈ unlink_first v ns -> p ∈ ns.
Proof.
  induction ns as [|[b x] ns IH]; simpl; [done|].
  destruct (x =? v); intros Hp.
  - apply elem_of_cons. by right.
  - apply elem_of_cons in Hp as [->|Hp]; apply elem_of_cons; auto.
Qed.

Lemma length_unlink_first v ns :
  (length (unlink_first v ns) <= length ns)%nat.
Proof.
  induction ns as [|[b x] ns IH]; simpl; [lia|].
  destruct (x =? v); simpl; lia.
Qed.

Lemma chain_lookup h p ns a x :
  chain h p ns -> (a, x) ∈ ns -> exists q, h !! a = Some (Node (Some x) (Some q)).
Proof.
  induction 1 as [|b v q ns Hb _ IH]; intros Hin.
  - by apply elem_of_nil in Hin.
  - apply elem_of_cons in Hin as [[= -> ->]|Hin]; eauto.
Qed.

(** X12: the footprint of [ll_remove].  It frees the first node holding
    [v], if there is one, and no other; it allocates nothing and touches no
    array and no node outside the list; every node that stays holds the
    value it held. *)
Theorem ll_remove_footprint fuel head ns v s :
  chain (nodes s) head ns ->
  (length ns <= fuel)%nat ->
  exists r s',
    ll_remove fuel head v s = Done r s' /\
    arrays s' = arrays s /\
    oracle s' = oracle s /\
    dom (nodes s') =
      dom (nodes s) ∖ (match first_holding v ns with
                       | Some a => {[a]}
                       | None => ∅
                       end) /\
    (forall a, a ∉ addrs ns -> nodes s' !! a = nodes s !! a) /\
    (forall a x, (a, x) ∈ unlink_first v ns ->
       exists q q', nodes s !! a = Some (Node (Some x) (Some q)) /\
                    nodes s' !! a = Some (Node (Some x) (Some q'))).
Proof.
  intros Hc Hfuel.
  destruct (ll_remove_chain fuel head ns v s Hc Hfuel)
    as (h' & Hrun & Hch & Hframe & _ & Hfreed).
  eexists _, _. split; [exact Hrun|]. simpl.
  split; [reflexivity|]. split; [reflexivity|]. split; [|split].
  - apply set_eq. intros b. rewrite elem_of_difference, !elem_of_dom.
    destruct (decide (b ∈ addrs ns)) as [Hin|Hni].
    + pose proof (chain_allocated _ _ _ _ Hc Hin) as Hold.
      destruct (decide (first_holding v ns = Some b)) as [Hfh|Hfh].
      * rewrite (Hfreed b Hfh), Hfh. split.
        -- intros [? ?]; discriminate.
        -- intros [_ Hnb]. exfalso. apply Hnb. by apply elem_of_singleton.
      * destruct (addrs_unlink_first v ns b Hin) as [?|Hstay]; [contradiction|].
        pose proof (chain_allocated _ _ _ _ Hch Hstay) as Hnew.
        split; [|tauto]. intros _. split; [exact Hold|].
        destruct (first_holding v ns) as [a|]; [|apply not_elem_of_empty].
        rewrite elem_of_singleton. congruence.
    + rewrite (Hframe b Hni). split; [|tauto]. intros Hb. split; [exact Hb|].
      destruct (first_holding v ns) as [a|] eqn:Hfh; [|apply not_elem_of_empty].
      rewrite elem_of_singleton. intros ->.
      apply Hni. by apply (first_holding_addr v).
  - exact Hframe.
  - intros a x Hin.
    destruct (chain_lookup _ _ _ _ _ Hc (unlink_first_sub _ _ _ Hin)) as [q Hq].
    destruct (chain_lookup _ _ _ _ _ Hch Hin) as [q' Hq'].
    eauto.
Qed.

Lemma count_occ_remove_first v w l :
  count_occ Z.eq_dec (remove_first v l) w =
  if decide (w = v) then pred (count_occ Z.eq_dec l v)
  else count_occ Z.eq_dec l w.
Proof.
  induction l as [|x l IH]; simpl.
  - by destruct (decide (w = v)).
  - destruct (Z.eqb_spec x v) as [->|Hne]; simpl.
    + destruct (Z.eq_dec v v); [|contradiction]. simpl.
      destruct (decide (w = v)) as [->|Hwv]; [reflexivity|].
      destruct (Z.eq_dec v w); [congruence | reflexivity].
    + rewrite IH. destruct (decide (w = v)) as [->|Hwv].
      * destruct (Z.eq_dec x v); [contradiction | reflexivity].
      * reflexivity.
Qed.

(** X13: [ll_remove] removes one occurrence only.  The number of nodes
    holding [v] drops by one (stays 0 when there was none), the number of
    nodes holding any other value is unchanged, and when [v] occurred at
    least twice [ll_find] still finds it in the result. *)
Theorem ll_remove_only_first fuel head ns v s :
  chain (nodes s) head ns ->
  (length ns <= fuel)%nat ->
  exists r s' ns',
    ll_remove fuel head v s = Done r s' /\
    chain (nodes s') r ns' /\
    count_occ Z.eq_dec (values ns') v = pred (count_occ Z.eq_dec (values ns) v) /\
    (forall w, w ≠ v ->
       count_occ Z.eq_dec (values ns') w = count_occ Z.eq_dec (values ns) w) /\
    ((2 <= count_occ Z.eq_dec (values ns) v)%nat ->
       exists a, ll_find fuel r v s' = Done (Some a) s').
Proof.
  intros Hc Hfuel.
  destruct (ll_remove_chain fuel head ns v s Hc Hfuel) as (h' & Hrun & Hch & _).
  set (s' := State h' (arrays s) (oracle s)) in *.
  assert (Hv : count_occ Z.eq_dec (values (unlink_first v ns)) v
               = pred (count_occ Z.eq_dec (values ns) v)).
  { rewrite values_unlink_first, count_occ_remove_first.
    destruct (decide (v = v)); [reflexivity | contradiction]. }
  exists (head_of (unlink_first v ns)), s', (unlink_first v ns).
  split; [exact Hrun|]. split; [exact Hch|]. split; [exact Hv|]. split.
  - intros w Hw. rewrite values_unlink_first, count_occ_remove_first.
    destruct (decide (w = v)); [contradiction | reflexivity].
  - intros Htwo.
    assert (Hlen : (length (unlink_first v ns) <= fuel)%nat)
      by (pose proof (length_unlink_first v ns); lia).
    rewrite (ll_find_chain fuel _ _ v s' Hch Hlen).
    destruct (first_holding v (unlink_first v ns)) as [a|] eqn:Hfh; [eauto|].
    apply first_holding_null in Hfh. exfalso.
    assert (Hin : In v (values (unlink_first v ns))).
    { apply (count_occ_In Z.eq_dec). rewrite Hv. lia. }
    apply Hfh. by apply list_elem_of_In.
Qed.

Lemma first_holding_suffix v ns :
  exists pre post,
    ns = pre ++ post /\ (v ∉ values pre) /\ first_holding v ns = head_of post /\
    (forall a, first_holding v ns = Some a -> exists rest, post = (a, v) :: rest).
Proof.
  induction ns as [|[b x] ns IH]; simpl.
  - exists [], []. split; [reflexivity|].
    split; [apply not_elem_of_nil|]. split; [reflexivity | discriminate].
  - destruct (Z.eqb_spec x v) as [->|Hne].
    + exists [], ((b, v) :: ns). split; [reflexivity|].
      split; [apply not_elem_of_nil|]. split; [reflexivity|].
      intros a [= <-]. eauto.
    + destruct IH as (pre & post & -> & Hni & Hfh & Hpost).
      exists ((b, x) :: pre), post. split; [reflexivity|]. split.
      * simpl. apply not_elem_of_cons. split; [congruence | exact Hni].
      * split; assumption.
Qed.

(** X14: the node [ll_find] returns is itself the head of a list, the rest
    of the original one from the first node holding [v] on: [ll_size] of it
    is the number of nodes from there to the end. *)
Theorem ll_find_heads_sublist fuel head ns v s :
  chain (nodes s) head ns ->
  Z.of_nat (length ns) <= INT_MAX ->
  (length ns <= fuel)%nat ->
  exists r pre post,
    ll_find fuel head v s = Done r s /\
    ns = pre ++ post /\
    (v ∉ values pre) /\
    chain (nodes s) r post /\
    (forall a, r = Some a -> exists rest, post = (a, v) :: rest) /\
    ll_size fuel r s = Done (Z.of_nat (length post)) s.
Proof.
  intros Hc Hmax Hfuel.
  destruct (first_holding_suffix v ns) as (pre & post & Heq & Hni & Hfh & Hpost).
  assert (Hsub : chain (nodes s) (first_holding v ns) post).
  { rewrite Hfh. rewrite Heq in Hc.
    destruct (chain_app_inv _ _ _ _ Hc) as [q Hq].
    by rewrite <- (chain_head_of _ _ _ Hq). }
  assert (Hlen : (length post <= length ns)%nat)
    by (pose proof (f_equal length Heq) as Hl; rewrite length_app in Hl; lia).
  exists (first_holding v ns), pre, post.
  split; [by apply ll_find_chain|]. split; [exact Heq|].
  split; [exact Hni|]. split; [exact Hsub|]. split; [exact Hpost|].
  apply ll_size_chain; [exact Hsub | lia | lia].
Qed.

Lemma ll_size_loop_follow fuel count p s n s' :
  ll_size_loop fuel count p s = Done n s' ->
  s' = s /\ exists k, follow (nodes s) k p = Some NULL /\ n = count + Z.of_nat k.
Proof.
  revert count p. induction fuel as [|f IH]; intros count p; simpl.
  - destruct p; [discriminate|]. intros [= <- <-].
    split; [reflexivity|]. exists 0%nat. split; [reflexivity | lia].
  - destruct p as [a|].
    + unfold bind at 1. unfold int_add.
      destruct ((INT_MIN <=? count + 1) && (count + 1 <=? INT_MAX));
        [|discriminate].
      unfold ret, bind, load_next.
      destruct (nodes s !! a) as [[d [q|]]|] eqn:Ha; try discriminate.
      intros Hrun. destruct (IH _ _ Hrun) as (-> & k & Hk & ->).
      split; [reflexivity|]. exists (S k). simpl. rewrite Ha.
      split; [exact Hk | lia].
    + intros [= <- <-]. split; [reflexivity|].
      exists 0%nat. split; [reflexivity | lia].
Qed.

(** X15: [ll_size] needs the chain to end.  When following [next] from the
    head never reaches [NULL] (a cycle), [ll_size] returns no count however
    long it runs: it is still looping when the fuel is spent, or it has
    overflowed its counter. *)
Theorem ll_size_cycle_never_returns fuel head s :
  (forall k, follow (nodes s) k head ≠ Some NULL) ->
  ll_size fuel head s = Timeout \/ ll_size fuel head s = Fault.
Proof.
  intros Hcyc. unfold ll_size.
  destruct (ll_size_loop fuel 0 head s) as [n s'| |] eqn:Hrun; auto.
  destruct (ll_size_loop_follow _ _ _ _ _ _ Hrun) as (_ & k & Hk & _).
  destruct (Hcyc k Hk).
Qed.

(** X16: building a list with [ll_fromarray] and destroying it leaves no
    node behind: the node store and the arrays are what they were before
    the two calls. *)
Theorem ll_fromarray_destroy_no_leak fuel b xs rest s :
  arrays s !! b = Some ((Some <$> xs) ++ rest) ->
  xs ≠ [] ->
  Z.of_nat (length xs) <= INT_MAX ->
  alloc_ok (length xs) s ->
  (length xs <= fuel)%nat ->
  exists a s1 s2,
    ll_fromarray pick fuel (Some b) (Z.of_nat (length xs)) s
      = Done (Some a) s1 /\
    ll_destroy fuel (Some a) s1 = Done tt s2 /\
    nodes s2 = nodes s /\
    arrays s2 = arrays s.
Proof.
  intros Hb Hne Hmax Halloc Hfuel.
  destruct (ll_fromarray_ok pick pick_fresh fuel b xs rest s
              Hb Hne Hmax Halloc Hfuel)
    as (h' & ns' & Hrun & Hch & Hvals & Hnew & Hframe).
  set (s1 := State h' (arrays s) (drop (length xs) (oracle s))) in *.
  assert (Hlen : length ns' = length xs)
    by (rewrite <- Hvals; symmetry; apply length_map).
  destruct (ll_destroy_chain fuel (head_of ns') ns' s1 Hch ltac:(lia))
    as (h'' & Hrun2 & Hgone & Hframe2).
  destruct ns' as [|[a x] ns']; [destruct xs; [contradiction | discriminate]|].
  eexists a, s1, _. split; [exact Hrun|]. split; [exact Hrun2|]. simpl.
  split; [|reflexivity]. apply map_eq. intros c.
  destruct (decide (c ∈ addrs ((a, x) :: ns'))) as [Hin|Hni].
  - rewrite (Hgone c Hin). symmetry. by apply Hnew.
  - rewrite (Hframe2 c Hni). simpl. by apply Hframe.
Qed.

Lemma unlink_first_snoc d ns n :
  d ∉ values ns ->
  unlink_first d (ns ++ [(n, d)]) = ns /\
  first_holding d (ns ++ [(n, d)]) = Some n.
Proof.
  induction ns as [|[a x] ns IH]; simpl; intros Hni.
  - by rewrite Z.eqb_refl.
  - apply not_elem_of_cons in Hni as [Hne Hni].
    destruct (Z.eqb_spec x d); [congruence|].
    destruct (IH Hni) as [-> ->]. done.
Qed.

(** X17: appending a value that is not in the list and removing it again
    gives back the memory one started from: the same head, and the node
    store exactly as before the two calls. *)
Theorem ll_append_remove_roundtrip fuel head ns d s :
  chain (nodes s) head ns ->
  ns ≠ [] ->
  d ∉ values ns ->
  (S (length ns) <= fuel)%nat ->
  alloc_ok 1 s ->
  exists s1 s2,
    ll_append pick fuel head d s = Done tt s1 /\
    ll_remove fuel head d s1 = Done head s2 /\
    nodes s2 = nodes s /\
    arrays s2 = arrays s.
Proof.
  intros Hc Hne Hni Hfuel Halloc.
  destruct (alloc_ok_S _ _ Halloc) as (o & Ho & _).
  destruct (nonempty_snoc ns Hne) as (ns0 & t & x & Hns).
  set (n := pick (dom (nodes s))).
  assert (Hn : nodes s !! n = None) by apply (pick_unused pick pick_fresh).
  pose proof Hc as Hc0. rewrite Hns in Hc0.
  pose proof (chain_last_node _ _ _ _ _ Hc0) as Ht.
  assert (Htn : t ≠ n) by congruence.
  assert (Hhead : exists a, head = Some a).
  { destruct Hc; [contradiction | eauto]. }
  destruct Hhead as [a ->].
  set (h1 := <[t := Node (Some x) (Some (Some n))]>
               (<[n := Node (Some d) (Some NULL)]> (nodes s))).
  set (s1 := State h1 (arrays s) o).
  assert (Happ : ll_append pick fuel (Some a) d s = Done tt s1).
  { unfold ll_append, ll_tail.
    run (ll_tail_loop_chain fuel a ns0 t x s Hc0
           ltac:(rewrite Hns, length_app in Hfuel; simpl in Hfuel; lia)).
    run (ll_create_ok pick d s o Ho). fold n.
    set (s0 := State (<[n := Node (Some d) (Some NULL)]> (nodes s)) (arrays s) o).
    assert (Ht0 : nodes s0 !! t = Some (Node (Some x) (Some NULL)))
      by (simpl; rewrite lookup_insert_ne by done; exact Ht).
    rewrite (store_next_ok s0 t _ _ (Some n) Ht0). reflexivity. }
  assert (Hc1 : chain (nodes s1) (Some a) (ns ++ [(n, d)])).
  { rewrite Hns. simpl. by apply chain_snoc. }
  destruct (ll_remove_chain fuel (Some a) (ns ++ [(n, d)]) d s1 Hc1)
    as (h2 & Hrun & Hch & Hframe & _ & Hfreed).
  { rewrite length_app. simpl. lia. }
  destruct (unlink_first_snoc d ns n Hni) as [Hunl Hfh].
  rewrite Hunl in Hrun, Hch.
  rewrite <- (chain_head_of _ _ _ Hc) in Hrun, Hch.
  eexists s1, _. split; [exact Happ|]. split; [exact Hrun|]. simpl.
  split; [|reflexivity]. apply map_eq. intros c.
  destruct (decide (c ∈ addrs ns)) as [Hin|Hout].
  - symmetry. by apply (chain_agree _ _ _ _ _ Hc Hch).
  - destruct (decide (c = n)) as [->|Hcn].
    + rewrite Hn. by apply Hfreed.
    + rewrite Hframe.
      * simpl. unfold h1. rewrite !lookup_insert_ne; [reflexivity | done |].
        intros <-. apply Hout. rewrite Hns. unfold addrs.
        rewrite map_app, elem_of_app. right. simpl. apply elem_of_cons. by left.
      * unfold addrs in *. rewrite map_app, elem_of_app. simpl.
        rewrite list_elem_of_singleton. tauto.
Qed.

(** *** The driver *)

Lemma bind_ret {A B} (a : A) (k : A -> M B) s : bind (ret a) k s = k a s.
Proof. reflexivity. Qed.

Lemma bind_assoc {A B C} (m : M A) (k1 : A -> M B) (k2 : B -> M C) s :
  bind (bind m k1) k2 s = bind m (fun x => bind (k1 x) k2) s.
Proof. unfold bind. by destruct (m s). Qed.

Lemma free_ints_ok s b cells :
  arrays s !! b = Some cells ->
  free_ints (Some b) s = Done tt (State (nodes s) (delete b (arrays s)) (oracle s)).
Proof. unfold free_ints. intros ->. reflexivity. Qed.

Lemma extends_single (h0 : gmap loc ll_node) a x v :
  h0 !! a = None -> extends h0 (<[a := x]> h0) [(a, v)].
Proof.
  intros Ha. split; intros c Hc; simpl in Hc.
  - apply list_elem_of_singleton in Hc as ->. exact Ha.
  - rewrite list_elem_of_singleton in Hc. by apply lookup_insert_ne.
Qed.

Lemma extends_addrs h0 h ns ns' :
  addrs ns = addrs ns' -> extends h0 h ns -> extends h0 h ns'.
Proof. unfold extends. by intros ->. Qed.

Lemma ll_append_run fuel a ns0 t x d s o :
  chain (nodes s) (Some a) (ns0 ++ [(t, x)]) ->
  (length ns0 <= fuel)%nat ->
  oracle s = true :: o ->
  ll_append pick fuel (Some a) d s =
  Done tt (State (<[t := Node (Some x) (Some (Some (pick (dom (nodes s)))))]>
                    (<[pick (dom (nodes s)) := Node (Some d) (Some NULL)]>
                       (nodes s)))
                 (arrays s) o).
Proof.
  intros Hc Hfuel Ho.
  set (n := pick (dom (nodes s))).
  assert (Hn : nodes s !! n = None) by apply (pick_unused pick pick_fresh).
  pose proof (chain_last_node _ _ _ _ _ Hc) as Ht.
  assert (Htn : t ≠ n) by congruence.
  unfold ll_append, ll_tail.
  run (ll_tail_loop_chain fuel a ns0 t x s Hc Hfuel).
  run (ll_create_ok pick d s o Ho). fold n.
  set (s0 := State (<[n := Node (Some d) (Some NULL)]> (nodes s)) (arrays s) o).
  assert (Ht0 : nodes s0 !! t = Some (Node (Some x) (Some NULL)))
    by (simpl; rewrite lookup_insert_ne by done; exact Ht).
  rewrite (store_next_ok s0 t _ _ (Some n) Ht0). reflexivity.
Qed.

(** Whatever the allocator answers, [ll_append] on a non-empty list built
    over [h0] leaves a list built over [h0], with the new value at the end
    when the allocation succeeded. *)
Lemma ll_append_any h0 fuel a ns d s :
  chain (nodes s) (Some a) ns ->
  extends h0 (nodes s) ns ->
  (length ns <= fuel)%nat ->
  exists h' ns',
    ll_append pick fuel (Some a) d s
      = Done tt (State h' (arrays s) (tail (oracle s))) /\
    chain h' (Some a) ns' /\
    extends h0 h' ns' /\
    values ns' = values ns ++ (if hd false (oracle s) then [d] else []).
Proof.
  intros Hc [Hnew Hsame] Hfuel.
  assert (Hne : ns ≠ []) by (inversion Hc; discriminate).
  destruct (nonempty_snoc ns Hne) as (ns0 & t & x & ->).
  rewrite length_app in Hfuel. simpl in Hfuel.
  destruct (hd false (oracle s)) eqn:Hhd.
  - destruct (oracle s) as [|[|] o] eqn:Ho; try discriminate. simpl.
    set (n := pick (dom (nodes s))).
    assert (Hn : nodes s !! n = None) by apply (pick_unused pick pick_fresh).
    assert (Hnn : n ∉ addrs (ns0 ++ [(t, x)])).
    { intros Hin. destruct (chain_allocated _ _ _ _ Hc Hin). congruence. }
    eexists _, ((ns0 ++ [(t, x)]) ++ [(n, d)]).
    split; [apply (ll_append_run fuel a ns0 t x d s o Hc ltac:(lia) Ho)|].
    split; [by apply chain_snoc|]. split; [split|].
    + intros c Hin. unfold addrs in Hin. rewrite map_app, elem_of_app in Hin.
      destruct Hin as [Hin|Hin]; [by apply Hnew|].
      simpl in Hin. apply list_elem_of_singleton in Hin as ->.
      rewrite <- (Hsame n Hnn). exact Hn.
    + intros c Hout. unfold addrs in Hout.
      rewrite map_app, elem_of_app in Hout. simpl in Hout.
      rewrite list_elem_of_singleton in Hout.
      assert (c ≠ t).
      { intros ->. apply Hout. left. rewrite map_app, elem_of_app. right.
        simpl. apply elem_of_cons. by left. }
      fold n. rewrite !lookup_insert_ne by (try done; intros <-; tauto).
      apply Hsame. tauto.
    + unfold values. by rewrite !map_app.
  - exists (nodes s), (ns0 ++ [(t, x)]). split; [|split; [|split]].
    + unfold ll_append, ll_tail.
      run (ll_tail_loop_chain fuel a ns0 t x s Hc ltac:(lia)).
      run (ll_create_fail pick d s Hhd). reflexivity.
    + exact Hc.
    + by split.
    + by rewrite app_nil_r.
Qed.

Lemma ll_remove_extends h0 fuel head ns v s :
  chain (nodes s) head ns ->
  extends h0 (nodes s) ns ->
  (length ns <= fuel)%nat ->
  exists h',
    ll_remove fuel head v s
      = Done (head_of (unlink_first v ns)) (State h' (arrays s) (oracle s)) /\
    chain h' (head_of (unlink_first v ns)) (unlink_first v ns) /\
    extends h0 h' (unlink_first v ns).
Proof.
  intros Hc [Hnew Hsame] Hfuel.
  destruct (ll_remove_chain fuel head ns v s Hc Hfuel)
    as (h' & Hrun & Hch & Hframe & _ & Hfreed).
  exists h'. split; [exact Hrun|]. split; [exact Hch|]. split.
  - intros c Hin. apply Hnew.
    apply list_elem_of_fmap in Hin as ([c' y] & -> & Hin).
    apply list_elem_of_fmap. exists (c', y). split; [reflexivity|].
    by apply (unlink_first_sub v).
  - intros c Hout. destruct (decide (c ∈ addrs ns)) as [Hin|Hni].
    + destruct (addrs_unlink_first v ns c Hin) as [Hfh|?]; [|contradiction].
      rewrite (Hfreed c Hfh). symmetry. by apply Hnew.
    + rewrite (Hframe c Hni). by apply Hsame.
Qed.

Lemma ll_destroy_extends h0 fuel head ns s :
  chain (nodes s) head ns ->
  extends h0 (nodes s) ns ->
  (length ns <= fuel)%nat ->
  ll_destroy fuel head s = Done tt (State h0 (arrays s) (oracle s)).
Proof.
  intros Hc [Hnew Hsame] Hfuel.
  destruct (ll_destroy_chain fuel head ns s Hc Hfuel)
    as (h' & Hrun & Hgone & Hframe).
  rewrite Hrun. f_equal. f_equal. apply map_eq. intros c.
  destruct (decide (c ∈ addrs ns)) as [Hin|Hni].
  - rewrite (Hgone c Hin). symmetry. by apply Hnew.
  - rewrite (Hframe c Hni). by apply Hsame.
Qed.

Lemma main_print_loop_run lfuel fuel lst b ns j rest out s :
  chain (nodes s) lst ns ->
  arrays s !! b = Some (Some <$> values ns) ->
  (length ns <= lfuel)%nat ->
  Z.of_nat (length ns) <= INT_MAX ->
  drop j (values ns) = rest ->
  (j <= length ns)%nat ->
  (length rest <= fuel)%nat ->
  main_print_loop lfuel fuel lst (Some b) (Z.of_nat j) out s =
  Done (out ++ ((fun x => Printf "%d " [PInt x]) <$> rest)) s.
Proof.
  intros Hc Hb Hlfuel Hmax. revert fuel j out.
  assert (Hvl : length (values ns) = length ns) by apply length_map.
  induction rest as [|x rest IH]; intros fuel j out Hdrop Hj Hfuel.
  - apply drop_nil_inv in Hdrop. rewrite Hvl in Hdrop.
    destruct fuel; simpl;
      run (ll_size_chain lfuel lst ns s Hc Hlfuel Hmax);
      (destruct (Z.ltb_spec (Z.of_nat j) (Z.of_nat (length ns))); [lia|]);
      unfold ret; by rewrite app_nil_r.
  - assert (Hx : values ns !! j = Some x).
    { rewrite <- (Nat.add_0_r j), <- lookup_drop, Hdrop. reflexivity. }
    assert (Hlt : (j < length ns)%nat).
    { rewrite <- Hvl. by apply lookup_lt_Some in Hx. }
    simpl in Hfuel. destruct fuel as [|f]; [lia|]. simpl.
    run (ll_size_chain lfuel lst ns s Hc Hlfuel Hmax).
    destruct (Z.ltb_spec (Z.of_nat j) (Z.of_nat (length ns))); [|lia].
    run (load_at_ok s b _ (Z.of_nat j) x Hb ltac:(lia)
           ltac:(rewrite Nat2Z.id, list_lookup_fmap, Hx; reflexivity)).
    run (int_add_ok (Z.of_nat j) 1 s ltac:(unfold INT_MIN, INT_MAX in *; lia)).
    replace (Z.of_nat j + 1) with (Z.of_nat (S j)) by lia.
    rewrite (IH f (S j)).
    + by rewrite <- app_assoc.
    + replace (S j) with (j + 1)%nat by lia.
      rewrite <- drop_drop, Hdrop. reflexivity.
    + lia.
    + lia.
Qed.

Lemma values_cons_inv (ns : list (loc * Z)) v vs :
  values ns = v :: vs -> exists a ns', ns = (a, v) :: ns' /\ values ns' = vs.
Proof.
  destruct ns as [|[a x] ns']; simpl; [discriminate|].
  intros [= -> <-]. eauto.
Qed.

(** What [main] does once its first allocation has succeeded, as a function
    of the outcomes [o] of the allocations that follow. *)
Lemma main_run fuel s o :
  (3 <= fuel)%nat ->
  oracle s = true :: o ->
  let vals :=
    1 :: (if hd false o then [2] else []) ++
         (if hd false (tail o) then [3] else []) in
  main pick fuel s =
  Done (0,
        [Printf "Quick manual test of linked list functions\n" [];
         Printf "size = %d\n" [PInt (Z.of_nat (length vals))]] ++
        (if hd false (tail (tail o))
         then [Printf "array: " []] ++
              ((fun x => Printf "%d " [PInt x]) <$> vals) ++
              [Printf "\n" []]
         else []) ++
        [Printf "find 2: %s\n"
           [PStr (if hd false o then "found" else "not found")];
         Printf "after remove head, size = %d\n"
           [PInt (Z.of_nat (length vals) - 1)]])
       (State (nodes s) (arrays s) (tail (tail (tail o)))).
Proof.
  intros Hfuel Ho vals. unfold main.
  run (ll_create_ok pick 1 s o Ho).
  set (a := pick (dom (nodes s))).
  assert (Ha : nodes s !! a = None) by apply (pick_unused pick pick_fresh).
  set (s1 := State (<[a := Node (Some 1) (Some NULL)]> (nodes s)) (arrays s) o).
  assert (Hch1 : chain (nodes s1) (Some a) [(a, 1)])
    by (econstructor; [apply lookup_insert_eq | constructor]).
  assert (Hext1 : extends (nodes s) (nodes s1) [(a, 1)])
    by (by apply extends_single).
  destruct (ll_append_any (nodes s) fuel a [(a, 1)] 2 s1 Hch1 Hext1
              ltac:(simpl; lia)) as (h2 & ns2 & Hrun2 & Hch2 & Hext2 & Hv2).
  simpl in Hrun2, Hv2. run Hrun2.
  set (s2 := State h2 (arrays s) (tail o)).
  assert (Hlen2 : (length ns2 <= 2)%nat).
  { rewrite <- (length_map snd ns2). fold (values ns2). rewrite Hv2.
    destruct (hd false o); simpl; lia. }
  destruct (ll_append_any (nodes s) fuel a ns2 3 s2 Hch2 Hext2 ltac:(lia))
    as (h3 & ns3 & Hrun3 & Hch3 & Hext3 & Hv3).
  simpl in Hrun3, Hv3. run Hrun3. rewrite Hv2 in Hv3.
  change (values ns3 = vals) in Hv3.
  assert (Hlen3 : length ns3 = length vals).
  { rewrite <- Hv3. symmetry. apply length_map. }
  assert (Hle3 : (length vals <= 3)%nat).
  { subst vals. destruct (hd false o), (hd false (tail o)); simpl; lia. }
  assert (Hmax3 : Z.of_nat (length ns3) <= INT_MAX)
    by (unfold INT_MAX; lia).
  set (s3 := State h3 (arrays s) (tail (tail o))).
  run (ll_size_chain fuel (Some a) ns3 s3 Hch3 ltac:(lia) Hmax3).
  destruct (values_cons_inv ns3 1 _ Hv3) as (a1 & ns3' & Hns3 & Hv3').
  assert (Hfind : (match first_holding 2 ns3 with
                   | Some _ => "found" | None => "not found" end)
                  = if hd false o then "found" else "not found").
  { rewrite Hns3. simpl.
    destruct (hd false o) eqn:Hb2; simpl in Hv3'.
    - destruct (values_cons_inv ns3' 2 _ Hv3') as (a2 & ns3'' & -> & _).
      reflexivity.
    - destruct (hd false (tail o)).
      + destruct (values_cons_inv ns3' 3 _ Hv3') as (a2 & ns3'' & -> & Hnil).
        destruct ns3''; [reflexivity | discriminate].
      + destruct ns3'; [reflexivity | discriminate]. }
  assert (Htail :
    forall out s4,
      nodes s4 = h3 ->
      (f <- ll_find fuel (Some a) 2 ;;
       lst <- ll_remove fuel (Some a) 1 ;;
       n <- ll_size fuel lst ;;
       ll_destroy fuel lst ;;;
       ret (0, (out ++ [Printf "find 2: %s\n"
                          [PStr (match f with
                                 | Some _ => "found" | None => "not found"
                                 end)]])
               ++ [Printf "after remove head, size = %d\n" [PInt n]])) s4
      = Done (0, (out ++ [Printf "find 2: %s\n"
                            [PStr (if hd false o
                                   then "found" else "not found")]])
                 ++ [Printf "after remove head, size = %d\n"
                       [PInt (Z.of_nat (length vals) - 1)]])
             (State (nodes s) (arrays s4) (oracle s4))).
  { intros out s4 Hs4. rewrite <- Hs4 in Hch3, Hext3.
    run (ll_find_chain fuel (Some a) ns3 2 s4 Hch3 ltac:(lia)).
    rewrite Hfind.
    destruct (ll_remove_extends (nodes s) fuel (Some a) ns3 1 s4 Hch3 Hext3
                ltac:(lia)) as (h5 & Hrun5 & Hch5 & Hext5).
    rewrite Hns3 in Hrun5, Hch5, Hext5. simpl in Hrun5, Hch5, Hext5.
    run Hrun5.
    set (s5 := State h5 (arrays s4) (oracle s4)).
    assert (Hlen5 : S (length ns3') = length vals)
      by (rewrite <- Hlen3, Hns3; reflexivity).
    run (ll_size_chain fuel (head_of ns3') ns3' s5 Hch5 ltac:(lia)
           ltac:(unfold INT_MAX; lia)).
    run (ll_destroy_extends (nodes s) fuel (head_of ns3') ns3' s5 Hch5 Hext5
           ltac:(lia)).
    replace (Z.of_nat (length vals) - 1) with (Z.of_nat (length ns3')) by lia.
    reflexivity. }
  destruct (hd false (tail (tail o))) eqn:Hb4.
  - destruct (tail (tail o)) as [|[|] o4] eqn:Ho3; try discriminate.
    assert (Hne : ns3 ≠ []) by (rewrite Hns3; discriminate).
    run (ll_toarray_chain pick fuel (Some a) ns3 s3 o4 Hch3 Hne Hmax3
           ltac:(lia) eq_refl).
    set (b := pick (dom (arrays s3))).
    assert (Hb : arrays s !! b = None) by apply (pick_unused pick pick_fresh).
    set (s4 := State (nodes s3) (<[b := Some <$> values ns3]> (arrays s3)) o4).
    change 0 with (Z.of_nat 0) at 1. rewrite bind_assoc.
    run (main_print_loop_run fuel fuel (Some a) b ns3 0 (values ns3) _ s4 Hch3
           ltac:(simpl; apply lookup_insert_eq) ltac:(lia) Hmax3 eq_refl
           ltac:(lia)
           ltac:(unfold values; rewrite length_map; lia)).
    rewrite bind_assoc.
    run (free_ints_ok s4 b (Some <$> values ns3) ltac:(apply lookup_insert_eq)).
    rewrite bind_ret. match goal with
    | |- bind _ _ ?st = _ => rewrite (Htail _ st eq_refl)
    end.
    subst s4 s3. cbn [nodes arrays oracle].
    rewrite delete_insert_id by exact Hb.
    rewrite Hlen3, Hv3. simpl. rewrite <- ?app_assoc. reflexivity.
  - run (ll_toarray_fail fuel (Some a) ns3 s3 Hch3
           ltac:(rewrite Hns3; discriminate) Hmax3 ltac:(lia) Hb4).
    rewrite bind_ret. match goal with
    | |- bind _ _ ?st = _ => rewrite (Htail _ st eq_refl)
    end.
    rewrite Hlen3. reflexivity.
Qed.

(** X18: the run of [main] when its four allocations succeed.  It exits
    with status 0 after printing the banner, size 3, the array 1 2 3, that
    2 is found, and size 2 after the head is removed; and it gives back all
    the memory it took: nodes and arrays are as before the run. *)
Theorem main_happy_path fuel s :
  (3 <= fuel)%nat ->
  alloc_ok 4 s ->
  main pick fuel s =
  Done (0,
        [Printf "Quick manual test of linked list functions\n" [];
         Printf "size = %d\n" [PInt 3];
         Printf "array: " [];
         Printf "%d " [PInt 1];
         Printf "%d " [PInt 2];
         Printf "%d " [PInt 3];
         Printf "\n" [];
         Printf "find 2: %s\n" [PStr "found"];
         Printf "after remove head, size = %d\n" [PInt 2]])
       (State (nodes s) (arrays s) (drop 4 (oracle s))).
Proof.
  intros Hfuel Halloc. unfold alloc_ok in Halloc.
  destruct (oracle s) as [|b1 [|b2 [|b3 [|b4 o]]]] eqn:Ho;
    simpl in Halloc; try discriminate.
  injection Halloc as -> -> -> ->.
  rewrite (main_run fuel s _ Hfuel Ho). reflexivity.
Qed.

(** X19: whatever the allocator answers, [main] runs to its end without a
    fault and leaks nothing: the nodes and arrays in memory afterwards are
    those from before the run.  The exit status is 1 when the first
    allocation fails and 0 otherwise. *)
Theorem main_releases_everything fuel s :
  (3 <= fuel)%nat ->
  exists code out s',
    main pick fuel s = Done (code, out) s' /\
    nodes s' = nodes s /\
    arrays s' = arrays s /\
    (code = 1 <-> hd false (oracle s) = false) /\
    (code = 0 <-> hd false (oracle s) = true).
Proof.
  intros Hfuel. destruct (hd false (oracle s)) eqn:Hhd.
  - destruct (oracle s) as [|[|] o] eqn:Ho; try discriminate.
    eexists _, _, _. split; [apply (main_run fuel s o Hfuel Ho)|]. simpl.
    split; [reflexivity|]. split; [reflexivity|]. split; split; done.
  - eexists _, _, _. split.
    + unfold main. run (ll_create_fail pick 1 s Hhd). reflexivity.
    + simpl. split; [reflexivity|]. split; [reflexivity|]. split; split; done.
Qed.

End Further.

(** *** Runs on concrete memories *)

Lemma dup_chain : chain (nodes dup_state) (Some 1%positive) dup_list.
Proof.
  apply chain_cons with (q := Some 2%positive); [reflexivity|].
  apply chain_cons with (q := Some 3%positive); [reflexivity|].
  apply chain_cons with (q := NULL); [reflexivity|].
  apply chain_nil.
Qed.

Lemma starved_chain : chain (nodes starved_state) (Some 1%positive) demo_list.
Proof. exact demo_chain. Qed.

Lemma loop_follow k : follow (nodes loop_state) k (Some 1%positive) ≠ Some NULL.
Proof. induction k as [|k IH]; [discriminate | exact IH]. Qed.

Lemma ll_tail_last_witness :
  ll_tail 3 (Some 1%positive) demo_state = Done (last_ptr demo_list) demo_state /\
  (last_ptr demo_list = NULL <-> Some 1%positive = NULL) /\
  (forall t, last_ptr demo_list = Some t ->
     exists v, nodes demo_state !! t = Some (Node (Some v) (Some NULL))).
Proof.
  apply (ll_tail_last 3 (Some 1%positive) demo_list demo_state).
  - exact demo_chain.
  - simpl. lia.
Defined.

Lemma ll_create_spec_witness :
  exists r s',
    ll_create fresh 5 demo_state = Done r s' /\
    (r = NULL <-> hd false (oracle demo_state) = false) /\
    oracle s' = tail (oracle demo_state) /\
    arrays s' = arrays demo_state /\
    (forall p ns, chain (nodes demo_state) p ns -> chain (nodes s') p ns) /\
    match r with
    | None => nodes s' = nodes demo_state
    | Some a =>
        nodes demo_state !! a = None /\
        nodes s' = <[a := Node (Some 5) (Some NULL)]> (nodes demo_state) /\
        chain (nodes s') r [(a, 5)] /\
        ll_size 1 r s' = Done 1 s' /\
        ll_find 1 r 5 s' = Done r s'
    end.
Proof. apply (ll_create_spec fresh (fun X => is_fresh X) 5 demo_state). Defined.

Lemma ll_append_links_at_tail_witness :
  exists n s',
    ll_append fresh 3 (Some 1%positive) 4 demo_state = Done tt s' /\
    nodes demo_state !! n = None /\
    chain (nodes s') (Some 1%positive) (demo_list ++ [(n, 4)]) /\
    arrays s' = arrays demo_state /\
    ll_tail 4 (Some 1%positive) s' = Done (Some n) s' /\
    ll_size 4 (Some 1%positive) s' = Done (Z.of_nat (length demo_list) + 1) s'.
Proof.
  apply (ll_append_links_at_tail fresh (fun X => is_fresh X)
           3 (Some 1%positive) demo_list 4 demo_state).
  - exact demo_chain.
  - discriminate.
  - simpl. lia.
  - unfold INT_MAX. simpl. lia.
  - reflexivity.
Defined.

Lemma ll_append_alloc_failure_witness :
  ll_append fresh 3 (Some 1%positive) 4 starved_state
    = Done tt (State (nodes starved_state) (arrays starved_state)
                     (tail (oracle starved_state))).
Proof.
  apply (ll_append_alloc_failure fresh 3 (Some 1%positive) demo_list 4
           starved_state).
  - exact starved_chain.
  - discriminate.
  - simpl. lia.
  - reflexivity.
Defined.

Lemma ll_destroy_frees_list_witness :
  exists s',
    ll_destroy 3 (Some 1%positive) demo_state = Done tt s' /\
    arrays s' = arrays demo_state /\
    oracle s' = oracle demo_state /\
    (forall a, nodes s' !! a =
               if decide (a ∈ addrs demo_list) then None
               else nodes demo_state !! a) /\
    dom (nodes s') = dom (nodes demo_state) ∖ list_to_set (addrs demo_list).
Proof.
  apply (ll_destroy_frees_list 3 (Some 1%positive) demo_list demo_state).
  - exact demo_chain.
  - simpl. lia.
Defined.

Lemma ll_destroy_leaves_dangling_witness :
  exists s',
    ll_destroy 3 (Some 1%positive) demo_state = Done tt s' /\
    ll_destroy 3 (Some 1%positive) s' = Fault /\
    ll_size 3 (Some 1%positive) s' = Fault /\
    ll_find 3 (Some 1%positive) 2 s' = Fault.
Proof.
  apply (ll_destroy_leaves_dangling 3 (Some 1%positive) demo_list 2 demo_state).
  - exact demo_chain.
  - discriminate.
  - simpl. lia.
Defined.

Lemma ll_fromarray_all_or_nothing_witness :
  ll_fromarray fresh 3 (Some 1%positive) 3 short_state
    = Done NULL (State (nodes short_state) (arrays short_state) [true]).
Proof.
  apply (ll_fromarray_all_or_nothing fresh (fun X => is_fresh X)
           3 1%positive [7; 8; 9] [] 2 [false; true] short_state).
  - reflexivity.
  - unfold INT_MAX. simpl. lia.
  - reflexivity.
  - reflexivity.
  - simpl. lia.
  - simpl. lia.
Defined.

Lemma ll_fromarray_fresh_nodes_witness :
  exists head s' ns',
    ll_fromarray fresh 3 (Some 1%positive) 3 demo_array_state = Done head s' /\
    chain (nodes s') head ns' /\
    values ns' = [7; 8; 9] /\
    arrays s' = arrays demo_array_state /\
    (forall a, a ∈ addrs ns' -> nodes demo_array_state !! a = None) /\
    (forall p ns0, chain (nodes demo_array_state) p ns0 ->
                   chain (nodes s') p ns0).
Proof.
  apply (ll_fromarray_fresh_nodes fresh (fun X => is_fresh X)
           3 1%positive [7; 8; 9] [] demo_array_state).
  - reflexivity.
  - discriminate.
  - unfold INT_MAX. simpl. lia.
  - reflexivity.
  - simpl. lia.
Defined.

Lemma ll_fromarray_out_of_bounds_witness :
  ll_fromarray fresh 3 (Some 1%positive) 5 demo_array_state = Fault.
Proof.
  apply (ll_fromarray_out_of_bounds fresh (fun X => is_fresh X)
           3 1%positive [7; 8; 9] 5 demo_array_state).
  - reflexivity.
  - simpl. lia.
  - unfold INT_MAX. lia.
  - reflexivity.
  - simpl. lia.
Defined.

Lemma ll_toarray_is_copy_witness :
  exists arr s1 r s2,
    ll_toarray fresh 3 (Some 1%positive) demo_state = Done (Some arr) s1 /\
    ll_remove 3 (Some 1%positive) 2 s1 = Done r s2 /\
    chain (nodes s2) r (unlink_first 2 demo_list) /\
    arrays s2 !! arr = Some (Some <$> values demo_list).
Proof.
  apply (ll_toarray_is_copy fresh 3 (Some 1%positive) demo_list 2 demo_state).
  - exact demo_chain.
  - discriminate.
  - exact demo_bound.
  - simpl. lia.
  - reflexivity.
Defined.

Lemma ll_toarray_spec_witness :
  exists r s',
    ll_toarray fresh 3 (Some 1%positive) demo_state = Done r s' /\
    nodes s' = nodes demo_state /\
    (r = NULL <-> demo_list = [] \/ hd false (oracle demo_state) = false) /\
    (demo_list = [] -> s' = demo_state) /\
    (demo_list ≠ [] -> oracle s' = tail (oracle demo_state)) /\
    match r with
    | None => arrays s' = arrays demo_state
    | Some arr =>
        arrays demo_state !! arr = None /\
        arrays s' !! arr = Some (Some <$> values demo_list) /\
        arrays s' = <[arr := Some <$> values demo_list]> (arrays demo_state)
    end.
Proof.
  apply (ll_toarray_spec fresh (fun X => is_fresh X)
           3 (Some 1%positive) demo_list demo_state).
  - exact demo_chain.
  - exact demo_bound.
  - simpl. lia.
Defined.

Lemma ll_remove_footprint_witness :
  exists r s',
    ll_remove 3 (Some 1%positive) 2 demo_state = Done r s' /\
    arrays s' = arrays demo_state /\
    oracle s' = oracle demo_state /\
    dom (nodes s') =
      dom (nodes demo_state) ∖ (match first_holding 2 demo_list with
                                | Some a => {[a]}
                                | None => ∅
                                end) /\
    (forall a, a ∉ addrs demo_list -> nodes s' !! a = nodes demo_state !! a) /\
    (forall a x, (a, x) ∈ unlink_first 2 demo_list ->
       exists q q', nodes demo_state !! a = Some (Node (Some x) (Some q)) /\
                    nodes s' !! a = Some (Node (Some x) (Some q'))).
Proof.
  apply (ll_remove_footprint 3 (Some 1%positive) demo_list 2 demo_state).
  - exact demo_chain.
  - simpl. lia.
Defined.

Lemma ll_remove_only_first_witness :
  exists r s' ns',
    ll_remove 3 (Some 1%positive) 2 dup_state = Done r s' /\
    chain (nodes s') r ns' /\
    count_occ Z.eq_dec (values ns') 2
      = pred (count_occ Z.eq_dec (values dup_list) 2) /\
    (forall w, w ≠ 2 ->
       count_occ Z.eq_dec (values ns') w
         = count_occ Z.eq_dec (values dup_list) w) /\
    ((2 <= count_occ Z.eq_dec (values dup_list) 2%Z)%nat ->
       exists a, ll_find 3 r 2 s' = Done (Some a) s').
Proof.
  apply (ll_remove_only_first 3 (Some 1%positive) dup_list 2 dup_state).
  - exact dup_chain.
  - simpl. lia.
Defined.

Lemma ll_find_heads_sublist_witness :
  exists r pre post,
    ll_find 3 (Some 1%positive) 2 demo_state = Done r demo_state /\
    demo_list = pre ++ post /\
    (2 ∉ values pre) /\
    chain (nodes demo_state) r post /\
    (forall a, r = Some a -> exists rest, post = (a, 2) :: rest) /\
    ll_size 3 r demo_state = Done (Z.of_nat (length post)) demo_state.
Proof.
  apply (ll_find_heads_sublist 3 (Some 1%positive) demo_list 2 demo_state).
  - exact demo_chain.
  - exact demo_bound.
  - simpl. lia.
Defined.

Lemma ll_size_cycle_never_returns_witness :
  ll_size 100 (Some 1%positive) loop_state = Timeout \/
  ll_size 100 (Some 1%positive) loop_state = Fault.
Proof.
  apply (ll_size_cycle_never_returns 100 (Some 1%positive) loop_state).
  exact loop_follow.
Defined.

Lemma ll_fromarray_destroy_no_leak_witness :
  exists a s1 s2,
    ll_fromarray fresh 3 (Some 1%positive) 3 demo_array_state
      = Done (Some a) s1 /\
    ll_destroy 3 (Some a) s1 = Done tt s2 /\
    nodes s2 = nodes demo_array_state /\
    arrays s2 = arrays demo_array_state.
Proof.
  apply (ll_fromarray_destroy_no_leak fresh (fun X => is_fresh X)
           3 1%positive [7; 8; 9] [] demo_array_state).
  - reflexivity.
  - discriminate.
  - unfold INT_MAX. simpl. lia.
  - reflexivity.
  - simpl. lia.
Defined.

Lemma ll_append_remove_roundtrip_witness :
  exists s1 s2,
    ll_append fresh 4 (Some 1%positive) 4 demo_state = Done tt s1 /\
    ll_remove 4 (Some 1%positive) 4 s1 = Done (Some 1%positive) s2 /\
    nodes s2 = nodes demo_state /\
    arrays s2 = arrays demo_state.
Proof.
  apply (ll_append_remove_roundtrip fresh (fun X => is_fresh X)
           4 (Some 1%positive) demo_list 4 demo_state).
  - exact demo_chain.
  - discriminate.
  - simpl. rewrite !not_elem_of_cons. repeat split; try discriminate.
    apply not_elem_of_nil.
  - simpl. lia.
  - reflexivity.
Defined.

Lemma main_happy_path_witness :
  main fresh 3 demo_state =
  Done (0,
        [Printf "Quick manual test of linked list functions\n" [];
         Printf "size = %d\n" [PInt 3];
         Printf "array: " [];
         Printf "%d " [PInt 1];
         Printf "%d " [PInt 2];
         Printf "%d " [PInt 3];
         Printf "\n" [];
         Printf "find 2: %s\n" [PStr "found"];
         Printf "after remove head, size = %d\n" [PInt 2]])
       (State (nodes demo_state) (arrays demo_state)
              (drop 4 (oracle demo_state))).
Proof.
  apply (main_happy_path fresh (fun X => is_fresh X) 3 demo_state).
  - lia.
  - reflexivity.
Defined.

Lemma main_releases_everything_witness :
  exists code out s',
    main fresh 3 starved_state = Done (code, out) s' /\
    nodes s' = nodes starved_state /\
    arrays s' = arrays starved_state /\
    (code = 1 <-> hd false (oracle starved_state) = false) /\
    (code = 0 <-> hd false (oracle starved_state) = true).
Proof.
  apply (main_releases_everything fresh (fun X => is_fresh X) 3 starved_state).
  lia.
Defined.
